(** * SnowGlass: a shallow embedding of [src/components/SnowGlass.tsx]

    The component keeps its gesture state in React refs and state cells,
    paints an off-screen "fog" canvas and composites it once per display
    refresh.  The embedding has

    - the data of [src/types.ts] and a 2D canvas reduced to what the
      component uses: a context state (global alpha, composite operation,
      fill style) and the list of the calls painted since the bitmap was
      last reset;
    - one record for the props, state cells, refs and window size, and one
      function per handler of the source ([handsOnResults],
      [faceOnResults], [handleKeyDown], [handleKeyUp], [animate],
      [resize]), written statement for statement as passes over that
      record;
    - a transition system over the events the component reacts to, in
      which a state update that changes a dependency of [animate] re-runs
      the animation effect, as React does.

    JavaScript numbers are modelled as exact rationals ([Q]): the
    arithmetic of the source is kept operation for operation, without the
    rounding of IEEE doubles.  [Math.sqrt], [Math.random] and
    [performance.now] are primitives of the host: the first is a parameter
    of the handlers that use it, the other two are read from the
    environment of the call that uses them. *)

From Stdlib Require Import QArith Qabs Qminmax Qpower Lqa ZArith List Bool String Lia.
Import ListNotations.
Open Scope Q_scope.

(** ** Numbers *)

Definition Qltb (a b : Q) : bool := if Qlt_le_dec a b then true else false.

(** A square root on [Q] that is exact on squares of rationals (whatever the
    fraction's representation) and rounds down otherwise.  It is used to run
    the face handler on closed inputs. *)
Definition Qsqrt_floor (q : Q) : Q :=
  Qmake (Z.sqrt (Qnum q * Zpos (Qden q))) (Qden q).

(** ** Data model ([src/types.ts]) *)

Module Point.
Record t := mk { x : Q; y : Q }.
End Point.

Module Snowflake.
Record t := mk {
  x : Q; y : Q; size : Q; speed : Q; opacity : Q; wind : Q }.
End Snowflake.

(** A landmark array of the tracker; the indices the component reads are
    populated, so it is a total map from index to point. *)
Definition Landmarks := nat -> Point.t.

(** [results.multiHandLandmarks] / [results.multiFaceLandmarks]: possibly
    undefined, possibly empty. *)
Definition Results := option (list Landmarks).

(** ** Constants *)

Definition FOG_OPACITY_LIMIT : Q := 0.85.
Definition SMOOTHING_FACTOR : Q := 0.15.
Definition WIPE_DELAY_MS : Q := 1000.
Definition SNOW_COUNT : nat := 60.

(** ** Canvas 2D *)

Inductive CompositeOp := SourceOver | DestinationOut.

Record Rgba := rgba { red : Q; green : Q; blue : Q; alpha : Q }.

Definition ColorStop : Type := Q * Rgba.

Inductive FillStyle :=
| Solid (c : Rgba)
| LinearGradient (x0 y0 x1 y1 : Q) (stops : list ColorStop)
| RadialGradient (x0 y0 r0 x1 y1 r1 : Q) (stops : list ColorStop).

(** [fillRect(x, y, w, h)], or [beginPath(); arc(cx, cy, r, 0, 2*PI); fill()]. *)
Inductive Shape :=
| Rect (x y w h : Q)
| Disc (cx cy r : Q).

Inductive Glyph := PeaceGlyph.

(** One call that paints, with the context state it was issued under. *)
Inductive DrawCall :=
| Fill (op : CompositeOp) (globalAlpha : Q) (style : FillStyle) (shape : Shape)
| DrawVideo (globalAlpha : Q) (w h : Q)      (* mirrored, blurred video frame *)
| DrawFog (globalAlpha : Q)                  (* drawImage(fogCanvas, 0, 0) *)
| FillText (globalAlpha : Q) (style : FillStyle) (g : Glyph) (x y : Q).

Module Ctx.
Record t := mk {
  globalAlpha : Q;
  globalCompositeOperation : CompositeOp;
  fillStyle : FillStyle;
  calls : list DrawCall   (* what was painted since the bitmap was last reset *)
}.

Definition black : Rgba := rgba 0 0 0 1.

(** The default state of a context over a blank bitmap. *)
Definition fresh : t := mk 1 SourceOver (Solid black) [].

Definition setGlobalAlpha (a : Q) (c : t) : t :=
  mk a (globalCompositeOperation c) (fillStyle c) (calls c).
Definition setGlobalCompositeOperation (op : CompositeOp) (c : t) : t :=
  mk (globalAlpha c) op (fillStyle c) (calls c).
Definition setFillStyle (st : FillStyle) (c : t) : t :=
  mk (globalAlpha c) (globalCompositeOperation c) st (calls c).
Definition emit (d : DrawCall) (c : t) : t :=
  mk (globalAlpha c) (globalCompositeOperation c) (fillStyle c) (calls c ++ [d]).

Definition fill (sh : Shape) (c : t) : t :=
  emit (Fill (globalCompositeOperation c) (globalAlpha c) (fillStyle c) sh) c.
Definition fillRect (x y w h : Q) (c : t) : t := fill (Rect x y w h) c.
(** [beginPath(); arc(cx, cy, r, 0, Math.PI * 2); fill()] *)
Definition fillDisc (cx cy r : Q) (c : t) : t := fill (Disc cx cy r) c.
End Ctx.

Module Canvas.
(** [context2d] is what [getContext('2d')] returns: [None] for null. *)
Record t := mk { width : Q; height : Q; context2d : option Ctx.t }.

(** Assigning [width] or [height] clears the bitmap and resets the
    context to its default state. *)
Definition reset (c : option Ctx.t) : option Ctx.t :=
  match c with Some _ => Some Ctx.fresh | None => None end.
Definition setWidth (w : Q) (c : t) : t := mk w (height c) (reset (context2d c)).
Definition setHeight (h : Q) (c : t) : t := mk (width c) h (reset (context2d c)).
Definition setContext (x : Ctx.t) (c : t) : t := mk (width c) (height c) (Some x).

(** [document.createElement('canvas')] *)
Definition create (has2d : bool) : t :=
  mk 300 150 (if has2d then Some Ctx.fresh else None).
End Canvas.

(** ** Component state

    Props, [useState] cells, refs and the window size the component reads.
    The ref [lastTime] is never read or written and is left out. *)

Record State := mkState {
  (* props *)
  (* the video element prop, by truthiness *)
  videoSource : bool;
  isSymmetry : bool;
  (* useState *)
  breathIntensity : Q;
  handDetected : bool;
  peaceDetected : bool;
  (* useRef *)
  (* [None]: canvasRef.current is null *)
  canvasRef : option Canvas.t;
  fogCanvasRef : Canvas.t;
  (* [true]: a requestAnimationFrame callback is pending *)
  requestRef : bool;
  mouthPos : Point.t;
  indexTipPos : option Point.t;
  smoothedIndexTip : option Point.t;
  (* 0 encodes unset *)
  handPresenceTime : Q;
  snowflakes : list Snowflake.t;
  isBreathingManual : bool;
  (* window *)
  innerWidth : Q;
  innerHeight : Q
}.

Definition set_isSymmetry (v : bool) (s : State) : State :=
  mkState (videoSource s) v (breathIntensity s) (handDetected s) (peaceDetected s) (canvasRef s) (fogCanvasRef s) (requestRef s) (mouthPos s) (indexTipPos s) (smoothedIndexTip s) (handPresenceTime s) (snowflakes s) (isBreathingManual s) (innerWidth s) (innerHeight s).
Definition set_breathIntensity (v : Q) (s : State) : State :=
  mkState (videoSource s) (isSymmetry s) v (handDetected s) (peaceDetected s) (canvasRef s) (fogCanvasRef s) (requestRef s) (mouthPos s) (indexTipPos s) (smoothedIndexTip s) (handPresenceTime s) (snowflakes s) (isBreathingManual s) (innerWidth s) (innerHeight s).
Definition set_handDetected (v : bool) (s : State) : State :=
  mkState (videoSource s) (isSymmetry s) (breathIntensity s) v (peaceDetected s) (canvasRef s) (fogCanvasRef s) (requestRef s) (mouthPos s) (indexTipPos s) (smoothedIndexTip s) (handPresenceTime s) (snowflakes s) (isBreathingManual s) (innerWidth s) (innerHeight s).
Definition set_peaceDetected (v : bool) (s : State) : State :=
  mkState (videoSource s) (isSymmetry s) (breathIntensity s) (handDetected s) v (canvasRef s) (fogCanvasRef s) (requestRef s) (mouthPos s) (indexTipPos s) (smoothedIndexTip s) (handPresenceTime s) (snowflakes s) (isBreathingManual s) (innerWidth s) (innerHeight s).
Definition set_canvasRef (v : option Canvas.t) (s : State) : State :=
  mkState (videoSource s) (isSymmetry s) (breathIntensity s) (handDetected s) (peaceDetected s) v (fogCanvasRef s) (requestRef s) (mouthPos s) (indexTipPos s) (smoothedIndexTip s) (handPresenceTime s) (snowflakes s) (isBreathingManual s) (innerWidth s) (innerHeight s).
Definition set_fogCanvasRef (v : Canvas.t) (s : State) : State :=
  mkState (videoSource s) (isSymmetry s) (breathIntensity s) (handDetected s) (peaceDetected s) (canvasRef s) v (requestRef s) (mouthPos s) (indexTipPos s) (smoothedIndexTip s) (handPresenceTime s) (snowflakes s) (isBreathingManual s) (innerWidth s) (innerHeight s).
Definition set_requestRef (v : bool) (s : State) : State :=
  mkState (videoSource s) (isSymmetry s) (breathIntensity s) (handDetected s) (peaceDetected s) (canvasRef s) (fogCanvasRef s) v (mouthPos s) (indexTipPos s) (smoothedIndexTip s) (handPresenceTime s) (snowflakes s) (isBreathingManual s) (innerWidth s) (innerHeight s).
Definition set_mouthPos (v : Point.t) (s : State) : State :=
  mkState (videoSource s) (isSymmetry s) (breathIntensity s) (handDetected s) (peaceDetected s) (canvasRef s) (fogCanvasRef s) (requestRef s) v (indexTipPos s) (smoothedIndexTip s) (handPresenceTime s) (snowflakes s) (isBreathingManual s) (innerWidth s) (innerHeight s).
Definition set_indexTipPos (v : option Point.t) (s : State) : State :=
  mkState (videoSource s) (isSymmetry s) (breathIntensity s) (handDetected s) (peaceDetected s) (canvasRef s) (fogCanvasRef s) (requestRef s) (mouthPos s) v (smoothedIndexTip s) (handPresenceTime s) (snowflakes s) (isBreathingManual s) (innerWidth s) (innerHeight s).
Definition set_smoothedIndexTip (v : option Point.t) (s : State) : State :=
  mkState (videoSource s) (isSymmetry s) (breathIntensity s) (handDetected s) (peaceDetected s) (canvasRef s) (fogCanvasRef s) (requestRef s) (mouthPos s) (indexTipPos s) v (handPresenceTime s) (snowflakes s) (isBreathingManual s) (innerWidth s) (innerHeight s).
Definition set_handPresenceTime (v : Q) (s : State) : State :=
  mkState (videoSource s) (isSymmetry s) (breathIntensity s) (handDetected s) (peaceDetected s) (canvasRef s) (fogCanvasRef s) (requestRef s) (mouthPos s) (indexTipPos s) (smoothedIndexTip s) v (snowflakes s) (isBreathingManual s) (innerWidth s) (innerHeight s).
Definition set_snowflakes (v : list Snowflake.t) (s : State) : State :=
  mkState (videoSource s) (isSymmetry s) (breathIntensity s) (handDetected s) (peaceDetected s) (canvasRef s) (fogCanvasRef s) (requestRef s) (mouthPos s) (indexTipPos s) (smoothedIndexTip s) (handPresenceTime s) v (isBreathingManual s) (innerWidth s) (innerHeight s).
Definition set_isBreathingManual (v : bool) (s : State) : State :=
  mkState (videoSource s) (isSymmetry s) (breathIntensity s) (handDetected s) (peaceDetected s) (canvasRef s) (fogCanvasRef s) (requestRef s) (mouthPos s) (indexTipPos s) (smoothedIndexTip s) (handPresenceTime s) (snowflakes s) v (innerWidth s) (innerHeight s).
Definition set_innerWidth (v : Q) (s : State) : State :=
  mkState (videoSource s) (isSymmetry s) (breathIntensity s) (handDetected s) (peaceDetected s) (canvasRef s) (fogCanvasRef s) (requestRef s) (mouthPos s) (indexTipPos s) (smoothedIndexTip s) (handPresenceTime s) (snowflakes s) (isBreathingManual s) v (innerHeight s).
Definition set_innerHeight (v : Q) (s : State) : State :=
  mkState (videoSource s) (isSymmetry s) (breathIntensity s) (handDetected s) (peaceDetected s) (canvasRef s) (fogCanvasRef s) (requestRef s) (mouthPos s) (indexTipPos s) (smoothedIndexTip s) (handPresenceTime s) (snowflakes s) (isBreathingManual s) (innerWidth s) v.

(** Apply a sequence of context calls to the visible canvas or to the fog
    canvas.  Both are only used where the context has been obtained. *)
Definition onCtx (f : Ctx.t -> Ctx.t) (s : State) : State :=
  match canvasRef s with
  | Some c =>
      match Canvas.context2d c with
      | Some ctx => set_canvasRef (Some (Canvas.setContext (f ctx) c)) s
      | None => s
      end
  | None => s
  end.

Definition onFog (f : Ctx.t -> Ctx.t) (s : State) : State :=
  match Canvas.context2d (fogCanvasRef s) with
  | Some fCtx => set_fogCanvasRef (Canvas.setContext (f fCtx) (fogCanvasRef s)) s
  | None => s
  end.

(** What the fog surface holds: the calls painted on it since its last reset. *)
Definition fogCalls (s : State) : list DrawCall :=
  match Canvas.context2d (fogCanvasRef s) with
  | Some fCtx => Ctx.calls fCtx
  | None => []
  end.

(** ** Init Snow (lines 37-49) *)

(** [random k] is the value of the [k]-th call of [Math.random()] made by
    the code that receives [random]. *)
Definition newSnowflake (random : nat -> Q) (i : nat) : Snowflake.t :=
  Snowflake.mk
    (random (6 * i)%nat * 1920)
    (random (6 * i + 1)%nat * 1080)
    (1 + random (6 * i + 2)%nat * 3)
    (0.5 + random (6 * i + 3)%nat * 1.5)
    (0.2 + random (6 * i + 4)%nat * 0.5)
    ((random (6 * i + 5)%nat - 0.5) * 0.5).

(** [for (let i = ...; i < SNOW_COUNT; i++) arr.push(...)], with [n] the
    iterations left. *)
Fixpoint initSnowLoop (random : nat -> Q) (i n : nat) (arr : list Snowflake.t)
  : list Snowflake.t :=
  match n with
  | O => arr
  | S n' => initSnowLoop random (S i) n' (arr ++ [newSnowflake random i])
  end.

Definition initSnow (random : nat -> Q) (s : State) : State :=
  set_snowflakes (initSnowLoop random 0 SNOW_COUNT []) s.

Definition handleKeyDown (code : string) (s : State) : State :=
  if String.eqb code "Space" then set_isBreathingManual true s else s.

Definition handleKeyUp (code : string) (s : State) : State :=
  if String.eqb code "Space" then set_isBreathingManual false s else s.

(** ** Tracker callbacks (lines 87-128) *)

Definition handsOnResults (results : Results) (s : State) : State :=
  match results with
  | Some (landmarks :: _) =>
      let s := set_handDetected true s in
      let s := set_indexTipPos
                 (Some (Point.mk (Point.x (landmarks 8%nat)) (Point.y (landmarks 8%nat)))) s in
      let isIndexUp := Qltb (Point.y (landmarks 8%nat)) (Point.y (landmarks 6%nat)) in
      let isMiddleUp := Qltb (Point.y (landmarks 12%nat)) (Point.y (landmarks 10%nat)) in
      let isRingDown := Qltb (Point.y (landmarks 14%nat)) (Point.y (landmarks 16%nat)) in
      let isPinkyDown := Qltb (Point.y (landmarks 18%nat)) (Point.y (landmarks 20%nat)) in
      set_peaceDetected (isIndexUp && isMiddleUp && isRingDown && isPinkyDown) s
  | _ =>
      let s := set_handDetected false s in
      let s := set_peaceDetected false s in
      let s := set_indexTipPos None s in
      set_handPresenceTime 0 s
  end.

Definition lipDistance (Math_sqrt : Q -> Q) (upperLip lowerLip : Point.t) : Q :=
  Math_sqrt ((Point.x upperLip - Point.x lowerLip) ^ 2
             + (Point.y upperLip - Point.y lowerLip) ^ 2).

(** [Math.min(Math.max((dist - 0.01) * 15, 0), 1)] *)
Definition intensityOf (dist : Q) : Q := Qmin (Qmax ((dist - 0.01) * 15) 0) 1.

Definition faceOnResults (Math_sqrt : Q -> Q) (results : Results) (s : State) : State :=
  match results with
  | Some (landmarks :: _) =>
      let upperLip := landmarks 13%nat in
      let lowerLip := landmarks 14%nat in
      let dist := lipDistance Math_sqrt upperLip lowerLip in
      let intensity := intensityOf dist in
      let s := set_breathIntensity intensity s in
      set_mouthPos
        (Point.mk ((Point.x (landmarks 13%nat) + Point.x (landmarks 14%nat)) / 2)
                  ((Point.y (landmarks 13%nat) + Point.y (landmarks 14%nat)) / 2)) s
  | _ => set_breathIntensity 0 s
  end.

(** ** Main animation loop (lines 148-265) *)

(** What one call of [animate] reads from the host: the frame timestamp,
    the value [performance.now()] returns when the presence timer is set,
    the value it returns when the elapsed time is taken, and the values of
    the successive [Math.random()] calls. *)
Record FrameEnv := mkEnv {
  time : Q;
  nowAtSet : Q;
  nowAtElapsed : Q;
  random : nat -> Q
}.

Definition white (a : Q) : Rgba := rgba 255 255 255 a.
Definition frost (a : Q) : Rgba := rgba 200 220 240 a.

(** 1. Draw Background (Video); [save]/[restore] leave the state as it was. *)
Definition drawBackground (width height : Q) (ctx : Ctx.t) : Ctx.t :=
  Ctx.emit (DrawVideo (Ctx.globalAlpha ctx) width height) ctx.

(** 2. Draw Glass Shine Overlay *)
Definition drawShine (width height : Q) (ctx : Ctx.t) : Ctx.t :=
  let gradient :=
    LinearGradient 0 0 width height
      [(0, white 0.02); (0.5, white 0.05); (1, white 0.02)] in
  Ctx.fillRect 0 0 width height (Ctx.setFillStyle gradient ctx).

(** 3. Handle Fog Accumulation (Breath) *)
Definition effectiveIntensity (s : State) : Q :=
  Qmax (breathIntensity s) (if isBreathingManual s then 0.8 else 0).

Definition deposit (effective : Q) (mouth : Point.t) (width height : Q)
  (fCtx : Ctx.t) : Ctx.t :=
  let x := (1 - Point.x mouth) * width in
  let y := Point.y mouth * height in
  let radius := 100 + effective * 150 in
  let alpha := effective * 0.04 in
  let fogGrad :=
    RadialGradient x y 0 x y radius
      [(0, frost alpha); (0.6, frost (alpha * 0.4)); (1, frost 0)] in
  let fCtx := Ctx.setGlobalCompositeOperation SourceOver fCtx in
  let fCtx := Ctx.setFillStyle fogGrad fCtx in
  Ctx.fillDisc x y radius fCtx.

Definition handleFog (width height : Q) (s : State) : State :=
  let effective := effectiveIntensity s in
  if Qltb 0.1 effective
  then onFog (deposit effective (mouthPos s) width height) s
  else s.

(** 4. Handle Hand Wiping *)
Definition wipe (wx wy : Q) (fCtx : Ctx.t) : Ctx.t :=
  let fCtx := Ctx.setGlobalCompositeOperation DestinationOut fCtx in
  let wipeRadius := 45 in
  let wipeGrad :=
    RadialGradient wx wy (wipeRadius * 0.2) wx wy wipeRadius
      [(0, rgba 0 0 0 1); (0.8, rgba 0 0 0 0.4); (1, rgba 0 0 0 0)] in
  let fCtx := Ctx.setFillStyle wipeGrad fCtx in
  Ctx.fillDisc wx wy wipeRadius fCtx.

Definition smooth (target : Point.t) (smoothed : option Point.t) : Point.t :=
  match smoothed with
  | None => Point.mk (Point.x target) (Point.y target)
  | Some p =>
      Point.mk (Point.x p + (Point.x target - Point.x p) * SMOOTHING_FACTOR)
               (Point.y p + (Point.y target - Point.y p) * SMOOTHING_FACTOR)
  end.

Definition handleWiping (env : FrameEnv) (width height : Q) (s : State) : State :=
  match indexTipPos s with
  | Some tip =>
      let s := if Qeq_bool (handPresenceTime s) 0
               then set_handPresenceTime (nowAtSet env) s else s in
      let elapsed := nowAtElapsed env - handPresenceTime s in
      if Qltb WIPE_DELAY_MS elapsed then
        let targetX := (1 - Point.x tip) * width in
        let targetY := Point.y tip * height in
        let sm := smooth (Point.mk targetX targetY) (smoothedIndexTip s) in
        let s := set_smoothedIndexTip (Some sm) s in
        let s := onFog (wipe (Point.x sm) (Point.y sm)) s in
        if isSymmetry s
        then onFog (wipe (width - Point.x sm) (Point.y sm)) s
        else s
      else s
  | None => set_smoothedIndexTip None s
  end.

(** 5. Draw the Fog Layer onto Main Canvas *)
Definition drawFogLayer (ctx : Ctx.t) : Ctx.t :=
  Ctx.emit (DrawFog FOG_OPACITY_LIMIT) ctx.

(** 6. Draw Falling Snow: the body of the [forEach], for one flake; [k]
    counts the calls of [Math.random()] made so far in this frame. *)
Definition snowStep (random : nat -> Q) (width height : Q) (k : nat)
  (s : Snowflake.t) (ctx : Ctx.t) : Snowflake.t * Ctx.t * nat :=
  let ctx := Ctx.setGlobalAlpha (Snowflake.opacity s) ctx in
  let ctx := Ctx.fillDisc (Snowflake.x s) (Snowflake.y s) (Snowflake.size s) ctx in
  let y := Snowflake.y s + Snowflake.speed s in
  let x := Snowflake.x s + Snowflake.wind s in
  if Qltb height y
  then (Snowflake.mk (random k * width) (-10) (Snowflake.size s)
          (Snowflake.speed s) (Snowflake.opacity s) (Snowflake.wind s),
        ctx, S k)
  else (Snowflake.mk x y (Snowflake.size s)
          (Snowflake.speed s) (Snowflake.opacity s) (Snowflake.wind s),
        ctx, k).

Fixpoint snowLoop (random : nat -> Q) (width height : Q) (k : nat)
  (flakes : list Snowflake.t) (ctx : Ctx.t) : list Snowflake.t * Ctx.t :=
  match flakes with
  | [] => ([], ctx)
  | s :: rest =>
      let '(s', ctx, k) := snowStep random width height k s ctx in
      let '(rest', ctx) := snowLoop random width height k rest ctx in
      (s' :: rest', ctx)
  end.

Definition drawSnow (env : FrameEnv) (width height : Q) (s : State) : State :=
  match canvasRef s with
  | Some c =>
      match Canvas.context2d c with
      | Some ctx =>
          let ctx := Ctx.setFillStyle (Solid (white 0.8)) ctx in
          let r := snowLoop (random env) width height 0 (snowflakes s) ctx in
          set_snowflakes (fst r) (set_canvasRef (Some (Canvas.setContext (snd r) c)) s)
      | None => s
      end
  | None => s
  end.

(** 7. Peace Sign Easter Egg; the alpha and fill style set between [save]
    and [restore] do not outlive the block. *)
Definition drawPeace (width height : Q) (ctx : Ctx.t) : Ctx.t :=
  Ctx.emit (FillText 0.3 (Solid (white 1)) PeaceGlyph (width / 2) (height / 2 + 70)) ctx.

Definition requestAnimationFrame (s : State) : State := set_requestRef true s.
Definition cancelAnimationFrame (s : State) : State := set_requestRef false s.

Definition animate (env : FrameEnv) (s : State) : State :=
  match canvasRef s with
  | None => s
  | Some canvas =>
      if negb (videoSource s) then s else
      match Canvas.context2d canvas, Canvas.context2d (fogCanvasRef s) with
      | Some _, Some _ =>
          let width := Canvas.width canvas in
          let height := Canvas.height canvas in
          let s := onCtx (drawBackground width height) s in
          let s := onCtx (drawShine width height) s in
          let s := handleFog width height s in
          let s := handleWiping env width height s in
          let s := onCtx drawFogLayer s in
          let s := drawSnow env width height s in
          let s := if peaceDetected s then onCtx (drawPeace width height) s else s in
          requestAnimationFrame s
      | _, _ => s
      end
  end.

(** ** Resize and the animation effect (lines 267-289) *)

Definition resize (s : State) : State :=
  match canvasRef s with
  | None => s
  | Some canvas =>
      let canvas := Canvas.setWidth (innerWidth s) canvas in
      let canvas := Canvas.setHeight (innerHeight s) canvas in
      let s := set_canvasRef (Some canvas) s in
      let fog := Canvas.setWidth (innerWidth s) (fogCanvasRef s) in
      let fog := Canvas.setHeight (innerHeight s) fog in
      let s := set_fogCanvasRef fog s in
      onFog (fun fCtx =>
               Ctx.fillRect 0 0 (innerWidth s) (innerHeight s)
                 (Ctx.setFillStyle (Solid (frost 0.15)) fCtx)) s
  end.

(** The body of the effect on [animate], and its cleanup. *)
Definition animateEffect (s : State) : State := requestAnimationFrame (resize s).

Definition animateCleanup (s : State) : State :=
  if requestRef s then cancelAnimationFrame s else s.

(** ** The component as a transition system *)

Inductive Event :=
| HandsResults (results : Results)       (* hands.onResults *)
| FaceResults (results : Results)        (* faceMesh.onResults *)
| KeyDown (code : string)
| KeyUp (code : string)
| ToggleSymmetry                         (* the parent flips the isSymmetry prop *)
| WindowResize (w h : Q)                 (* the window takes a new size *)
| AnimationFrame (env : FrameEnv).       (* a display refresh *)

(** [animate] is memoised on [videoSource], [breathIntensity], [isSymmetry]
    and [peaceDetected]; the animation effect depends on [animate]. *)
Definition animateChanged (old new : State) : bool :=
  negb (Qeq_bool (breathIntensity old) (breathIntensity new))
  || negb (Bool.eqb (isSymmetry old) (isSymmetry new))
  || negb (Bool.eqb (peaceDetected old) (peaceDetected new)).

(** React commits an update: when [animate] is a new function the effect's
    cleanup runs, then the effect again. *)
Definition commit (old new : State) : State :=
  if animateChanged old new then animateEffect (animateCleanup new) else new.

Definition step (Math_sqrt : Q -> Q) (s : State) (e : Event) : State :=
  match e with
  | HandsResults results => commit s (handsOnResults results s)
  | FaceResults results => commit s (faceOnResults Math_sqrt results s)
  | KeyDown code => handleKeyDown code s
  | KeyUp code => handleKeyUp code s
  | ToggleSymmetry => commit s (set_isSymmetry (negb (isSymmetry s)) s)
  | WindowResize w h => resize (set_innerHeight h (set_innerWidth w s))
  | AnimationFrame env =>
      if requestRef s then animate env (set_requestRef false s) else s
  end.

Definition run (Math_sqrt : Q -> Q) (s : State) (events : list Event) : State :=
  fold_left (step Math_sqrt) events s.

(** The refs and state cells as the component declares them (lines 12-28). *)
Definition initialState (video symmetry : bool) (canvas : option Canvas.t)
  (fog2d : bool) (w h : Q) : State :=
  mkState video symmetry 0 false false canvas (Canvas.create fog2d) false
          (Point.mk 0.5 0.5) None None 0 [] false w h.

(** Mount: the snow effect, then the animation effect ([random] feeds the
    snow initialisation). *)
Definition mount (random : nat -> Q) (video symmetry : bool)
  (canvas : option Canvas.t) (fog2d : bool) (w h : Q) : State :=
  animateEffect (initSnow random (initialState video symmetry canvas fog2d w h)).

(** ** Observations *)

Definition isErase (d : DrawCall) : bool :=
  match d with
  | Fill DestinationOut _ _ _ => true
  | _ => false
  end.

(** The calls a transition from [s] to [s'] added to the fog surface. *)
Definition painted (s s' : State) : list DrawCall :=
  skipn (List.length (fogCalls s)) (fogCalls s').

(** The erase calls, and the other fog calls, of one run of [animate]. *)
Definition erases (env : FrameEnv) (s : State) : list DrawCall :=
  filter isErase (painted s (animate env s)).

Definition deposits (env : FrameEnv) (s : State) : list DrawCall :=
  filter (fun d => negb (isErase d)) (painted s (animate env s)).

(** The clock reading of every erase call along a run, in order. *)
Fixpoint eraseTimes (Math_sqrt : Q -> Q) (s : State) (events : list Event) : list Q :=
  match events with
  | [] => []
  | e :: rest =>
      match e with
      | AnimationFrame env =>
          map (fun _ => nowAtElapsed env)
              (filter isErase (painted s (step Math_sqrt s e)))
      | _ => []
      end ++ eraseTimes Math_sqrt (step Math_sqrt s e) rest
  end.

(** The drawing surface and both contexts are there, so [animate] draws. *)
Definition ready (s : State) : Prop :=
  videoSource s = true
  /\ (exists c ctx, canvasRef s = Some c /\ Canvas.context2d c = Some ctx)
  /\ (exists fCtx, Canvas.context2d (fogCanvasRef s) = Some fCtx).

(** The viewport [animate] draws on. *)
Definition viewport (s : State) : Q * Q :=
  match canvasRef s with
  | Some c => (Canvas.width c, Canvas.height c)
  | None => (0, 0)
  end.


(** A detected face is a non-empty landmark list. *)
Definition detectsFace (e : Event) : bool :=
  match e with
  | FaceResults (Some (_ :: _)) => true
  | _ => false
  end.

(** The fill one [wipe] at [(wx, wy)] paints, and the fill one [deposit]
    paints, under the global alpha [ga] of the fog context. *)
Definition wipeCall (ga wx wy : Q) : DrawCall :=
  Fill DestinationOut ga
    (RadialGradient wx wy (45 * 0.2) wx wy 45
       [(0, rgba 0 0 0 1); (0.8, rgba 0 0 0 0.4); (1, rgba 0 0 0 0)])
    (Disc wx wy 45).

Definition depositCall (ga cx cy radius alpha : Q) : DrawCall :=
  Fill SourceOver ga
    (RadialGradient cx cy 0 cx cy radius
       [(0, frost alpha); (0.6, frost (alpha * 0.4)); (1, frost 0)])
    (Disc cx cy radius).

(** The presence timer as [animate] leaves it when a fingertip is there. *)
Definition presenceStart (env : FrameEnv) (s : State) : Q :=
  if Qeq_bool (handPresenceTime s) 0 then nowAtSet env else handPresenceTime s.

(** The mirrored pixel position of a normalized point. *)
Definition mirrored (p : Point.t) (width height : Q) : Point.t :=
  Point.mk ((1 - Point.x p) * width) (Point.y p * height).

(** The fog calls of a frame that draws, read off [handleFog] and
    [handleWiping]: an optional deposit, then the wipes. *)
Definition frameDeposit (s : State) (ga w h : Q) : list DrawCall :=
  if Qltb 0.1 (effectiveIntensity s)
  then [depositCall ga ((1 - Point.x (mouthPos s)) * w) (Point.y (mouthPos s) * h)
          (100 + effectiveIntensity s * 150) (effectiveIntensity s * 0.04)]
  else [].

Definition frameWipes (env : FrameEnv) (s : State) (ga w h : Q) : list DrawCall :=
  match indexTipPos s with
  | Some tip =>
      if Qltb WIPE_DELAY_MS (nowAtElapsed env - presenceStart env s) then
        let sm := smooth (mirrored tip w h) (smoothedIndexTip s) in
        wipeCall ga (Point.x sm) (Point.y sm)
        :: (if isSymmetry s then [wipeCall ga (w - Point.x sm) (Point.y sm)] else [])
      else []
  | None => []
  end.

(** The presence timer and the smoothed fingertip as a frame that draws
    leaves them, read off [handleWiping]. *)
Definition framePresence (env : FrameEnv) (s : State) : Q :=
  match indexTipPos s with
  | Some _ => presenceStart env s
  | None => handPresenceTime s
  end.

Definition frameSmoothed (env : FrameEnv) (s : State) (w h : Q) : option Point.t :=
  match indexTipPos s with
  | Some tip =>
      if Qltb WIPE_DELAY_MS (nowAtElapsed env - presenceStart env s)
      then Some (smooth (mirrored tip w h) (smoothedIndexTip s))
      else smoothedIndexTip s
  | None => None
  end.

(** The fog context after the wipes of a frame that draws. *)
Definition frameWiped (env : FrameEnv) (s : State) (w h : Q) (fCtx : Ctx.t) : Ctx.t :=
  match indexTipPos s with
  | Some tip =>
      if Qltb WIPE_DELAY_MS (nowAtElapsed env - presenceStart env s) then
        let sm := smooth (mirrored tip w h) (smoothedIndexTip s) in
        let fCtx := wipe (Point.x sm) (Point.y sm) fCtx in
        if isSymmetry s then wipe (w - Point.x sm) (Point.y sm) fCtx else fCtx
      else fCtx
  | None => fCtx
  end.

(** A visible canvas with its 2D context, for closed examples. *)
Definition canvas0 : Canvas.t := Canvas.mk 300 150 (Some Ctx.fresh).

(** Closed inputs: a host whose [Math.random()] is constantly 0.95, a frame
    whose clock reads [t], a hand whose landmarks all sit at one point, a
    face whose inner lips are [gap] apart around (0.5, 0.5), and the
    component mounted on an 800 x 600 window. *)
Definition sampleRandom : nat -> Q := fun _ => 0.95.

Definition sampleEnv (t : Q) : FrameEnv := mkEnv t t t sampleRandom.

Definition sampleHand (px py : Q) : Landmarks := fun _ => Point.mk px py.

Definition sampleFace (gap : Q) : Landmarks :=
  fun i => if Nat.eqb i 13 then Point.mk 0.5 0.5 else Point.mk 0.5 (0.5 + gap).

Definition mounted : State :=
  mount sampleRandom true false (Some canvas0) true 800 600.





(** ** The visible canvas, the status line and the keys *)

From Stdlib Require Import Qround.

Definition mainCtx (s : State) : option Ctx.t :=
  match canvasRef s with
  | Some c => Canvas.context2d c
  | None => None
  end.

(** What the visible canvas holds, and what a transition added to it. *)
Definition mainCalls (s : State) : list DrawCall :=
  match mainCtx s with
  | Some ctx => Ctx.calls ctx
  | None => []
  end.

Definition drawn (s s' : State) : list DrawCall :=
  skipn (List.length (mainCalls s)) (mainCalls s').

(** The disc the [forEach] of step 6 paints for one flake. *)
Definition flakeDisc (op : CompositeOp) (f : Snowflake.t) : DrawCall :=
  Fill op (Snowflake.opacity f) (Solid (white 0.8))
    (Disc (Snowflake.x f) (Snowflake.y f) (Snowflake.size f)).

(** The context of the visible canvas after the steps 1, 2, 5, 6 and 7 of a
    frame, in the order [animate] runs them. *)
Definition frameCtx (env : FrameEnv) (s : State) (w h : Q) (ctx : Ctx.t) : Ctx.t :=
  let ctx := drawBackground w h ctx in
  let ctx := drawShine w h ctx in
  let ctx := drawFogLayer ctx in
  let ctx :=
    snd (snowLoop (random env) w h 0 (snowflakes s)
           (Ctx.setFillStyle (Solid (white 0.8)) ctx)) in
  if peaceDetected s then drawPeace w h ctx else ctx.

(** [Math.round(breathIntensity * 100)] of the status line (line 301):
    [Math.round] rounds half up. *)
Definition breathPercent (s : State) : Z := Qfloor (breathIntensity s * 100 + 0.5).

(** Whether Space is held after a sequence of events, going by the key
    events alone. *)
Definition spaceHeld (held : bool) (events : list Event) : bool :=
  fold_left
    (fun h e =>
       match e with
       | KeyDown code => if String.eqb code "Space" then true else h
       | KeyUp code => if String.eqb code "Space" then false else h
       | _ => h
       end) events held.

Definition inBox (w h : Q) (p : Point.t) : Prop :=
  0 <= Point.x p <= w /\ 0 <= Point.y p <= h.

(** The tracker reports normalized coordinates: the lips of a face result,
    the index tip of a hand result. *)
Definition normalized (e : Event) : Prop :=
  match e with
  | FaceResults (Some (lm :: _)) => inBox 1 1 (lm 13%nat) /\ inBox 1 1 (lm 14%nat)
  | HandsResults (Some (lm :: _)) => inBox 1 1 (lm 8%nat)
  | _ => True
  end.

(** The centre of a painted disc. *)
Definition centre (d : DrawCall) : option Point.t :=
  match d with
  | Fill _ _ _ (Disc cx cy _) => Some (Point.mk cx cy)
  | _ => None
  end.

Definition landsIn (w h : Q) (d : DrawCall) : Prop :=
  exists p, centre d = Some p /\ inBox w h p.

Definition isResize (e : Event) : bool :=
  match e with
  | WindowResize _ _ => true
  | _ => false
  end.

(** The events after which a hand is still there: all but a hands result
    without a hand. *)
Definition handStays (e : Event) : bool :=
  match e with
  | HandsResults (Some (_ :: _)) => true
  | HandsResults _ => false
  | _ => true
  end.

(** What a particle keeps for life. *)
Definition body (f : Snowflake.t) : Q * Q * Q * Q :=
  (Snowflake.size f, Snowflake.speed f, Snowflake.opacity f, Snowflake.wind f).

(** One advance of a particle on a [w] x [h] viewport, [f] before and [f']
    after: it keeps its body, and either moves by its speed and wind or,
    when that takes it below the bottom edge, restarts at y = -10 with an x
    drawn from [random]. *)
Definition advanced (random : nat -> Q) (w h : Q) (f f' : Snowflake.t) : Prop :=
  body f' = body f
  /\ (Snowflake.y f + Snowflake.speed f <= h ->
      Snowflake.y f' = Snowflake.y f + Snowflake.speed f
      /\ Snowflake.x f' = Snowflake.x f + Snowflake.wind f)
  /\ (h < Snowflake.y f + Snowflake.speed f ->
      Snowflake.y f' = -10 /\ exists k, Snowflake.x f' = random k * w).

(** The four comparisons of the peace sign, on image-space y. *)
Definition peaceSign (lm : Landmarks) : Prop :=
  Point.y (lm 8%nat) < Point.y (lm 6%nat)
  /\ Point.y (lm 12%nat) < Point.y (lm 10%nat)
  /\ Point.y (lm 14%nat) < Point.y (lm 16%nat)
  /\ Point.y (lm 18%nat) < Point.y (lm 20%nat).

(** ** The application shell ([src/App.tsx])

    [startCamera] is split at its [await]: the part before it, and the two
    ways the promise of [getUserMedia] settles.  [videoRef] and [srcObject]
    say whether [videoRef.current] is an element and whether a stream was
    attached to it; [awaiting] says that a call of [startCamera] is
    suspended at its [await].  The text of the error message is not
    modelled, only whether it was set. *)

Module App.
Inductive AppStatus := IDLE | LOADING | READY | ERROR.

Inductive Message := NoMessage | CameraUnavailable.

Record t := mk {
  status : AppStatus;
  errorMessage : Message;
  isSymmetry : bool;
  videoRef : bool;
  srcObject : bool;
  awaiting : bool
}.

Definition initial (video : bool) : t := mk IDLE NoMessage false video false false.

Definition startCamera (a : t) : t :=
  mk LOADING (errorMessage a) (isSymmetry a) (videoRef a) (srcObject a) true.

Definition startCameraGranted (a : t) : t :=
  if videoRef a
  then mk READY (errorMessage a) (isSymmetry a) (videoRef a) true false
  else mk (status a) (errorMessage a) (isSymmetry a) (videoRef a) (srcObject a) false.

Definition startCameraDenied (a : t) : t :=
  mk ERROR CameraUnavailable (isSymmetry a) (videoRef a) (srcObject a) false.

Definition onToggleSymmetry (a : t) : t :=
  mk (status a) (errorMessage a) (negb (isSymmetry a)) (videoRef a) (srcObject a)
     (awaiting a).

(** What the render shows below the hidden video. *)
Inductive Screen :=
| StartScreen
| Spinner
| ErrorScreen (m : Message)
| Glass (isSymmetry : bool)      (* <SnowGlass videoSource={videoRef.current} ... /> *)
| Blank.

Definition render (a : t) : Screen :=
  match status a with
  | IDLE => StartScreen
  | LOADING => Spinner
  | ERROR => ErrorScreen (errorMessage a)
  | READY => if videoRef a then Glass (isSymmetry a) else Blank
  end.

(** The clicks the rendered screen offers, and the settlement of the
    promise; [ClickReload] is [window.location.reload()]. *)
Inductive Event := ClickStart | Granted | Denied | ClickToggle | ClickReload.

Definition step (a : t) (e : Event) : t :=
  match e with
  | ClickStart =>
      match render a with StartScreen => startCamera a | _ => a end
  | Granted => if awaiting a then startCameraGranted a else a
  | Denied => if awaiting a then startCameraDenied a else a
  | ClickToggle =>
      match render a with Glass _ => onToggleSymmetry a | _ => a end
  | ClickReload =>
      match render a with ErrorScreen _ => initial (videoRef a) | _ => a end
  end.

Definition run (a : t) (events : list Event) : t := fold_left step events a.
End App.

(** A closed input: a host whose [Math.random()] is constantly 0.5, so
    that every particle starts at (960, 540) with speed 1.25 and no wind. *)
Definition sampleRandomHalf : nat -> Q := fun _ => 0.5.

(** A closed input: a hand showing the peace sign, index and middle tips
    above their joints, ring and pinky folded. *)
Definition samplePeace : Landmarks :=
  fun i =>
    Point.mk 0.5
      (if Nat.eqb i 8 || Nat.eqb i 12 || Nat.eqb i 14 || Nat.eqb i 18
       then 0.3 else 0.6).
(** * Properties *)

(** ** Comparisons *)

Lemma Qltb_true (a b : Q) : Qltb a b = true <-> a < b.
Proof.
  unfold Qltb. destruct (Qlt_le_dec a b) as [H|H]; split; intros; try easy.
  lra.
Qed.

Lemma Qltb_false (a b : Q) : Qltb a b = false <-> b <= a.
Proof.
  unfold Qltb. destruct (Qlt_le_dec a b) as [H|H]; split; intros; try easy.
  lra.
Qed.

Lemma Qeq_bool_false (a b : Q) : Qeq_bool a b = false <-> ~ a == b.
Proof.
  split; intro H.
  - intro E. apply Qeq_bool_iff in E. congruence.
  - destruct (Qeq_bool a b) eqn:E; [apply Qeq_bool_iff in E; contradiction | reflexivity].
Qed.

(** ** States and setters *)

Ltac open_state s :=
  destruct s as [vid sym bi hd pd cref fog req mouth tip sm hpt fl man iw ih].

(** Push projections through setters. *)
Ltac st_cbn :=
  cbn [set_isSymmetry set_breathIntensity set_handDetected set_peaceDetected
     set_canvasRef set_fogCanvasRef set_requestRef set_mouthPos set_indexTipPos
     set_smoothedIndexTip set_handPresenceTime set_snowflakes
     set_isBreathingManual set_innerWidth set_innerHeight
     videoSource isSymmetry breathIntensity handDetected peaceDetected
     canvasRef fogCanvasRef requestRef mouthPos indexTipPos smoothedIndexTip
     handPresenceTime snowflakes isBreathingManual innerWidth innerHeight
     Canvas.width Canvas.height Canvas.context2d Canvas.setContext
     Canvas.setWidth Canvas.setHeight Canvas.reset negb fst snd] in *.

Lemma state_ext (a b : State) :
  videoSource a = videoSource b -> isSymmetry a = isSymmetry b ->
  breathIntensity a = breathIntensity b -> handDetected a = handDetected b ->
  peaceDetected a = peaceDetected b -> canvasRef a = canvasRef b ->
  fogCanvasRef a = fogCanvasRef b -> requestRef a = requestRef b ->
  mouthPos a = mouthPos b -> indexTipPos a = indexTipPos b ->
  smoothedIndexTip a = smoothedIndexTip b ->
  handPresenceTime a = handPresenceTime b -> snowflakes a = snowflakes b ->
  isBreathingManual a = isBreathingManual b ->
  innerWidth a = innerWidth b -> innerHeight a = innerHeight b -> a = b.
Proof. destruct a, b; cbn; intros; subst; reflexivity. Qed.

Lemma canvas_ext (a b : Canvas.t) :
  Canvas.width a = Canvas.width b -> Canvas.height a = Canvas.height b ->
  Canvas.context2d a = Canvas.context2d b -> a = b.
Proof. destruct a, b; cbn; intros; subst; reflexivity. Qed.

(** ** The stages of a frame, as writes to the cells they touch *)

Lemma animate_no_canvas env s : canvasRef s = None -> animate env s = s.
Proof. intros H. unfold animate. rewrite H. reflexivity. Qed.

Lemma animate_no_video env s : videoSource s = false -> animate env s = s.
Proof.
  intros H. unfold animate. rewrite H. destruct (canvasRef s); reflexivity.
Qed.

Lemma animate_no_ctx env s c :
  canvasRef s = Some c -> Canvas.context2d c = None -> animate env s = s.
Proof.
  intros H1 H2. unfold animate. rewrite H1, H2.
  destruct (negb (videoSource s)); reflexivity.
Qed.

Lemma animate_no_fog_ctx env s :
  Canvas.context2d (fogCanvasRef s) = None -> animate env s = s.
Proof.
  intros H. unfold animate. rewrite H.
  destruct (canvasRef s) as [c|]; [|reflexivity].
  destruct (negb (videoSource s)); [reflexivity|].
  destruct (Canvas.context2d c); reflexivity.
Qed.

Lemma onCtx_set f s c ctx :
  canvasRef s = Some c -> Canvas.context2d c = Some ctx ->
  onCtx f s = set_canvasRef (Some (Canvas.setContext (f ctx) c)) s.
Proof. intros H1 H2. unfold onCtx. rewrite H1, H2. reflexivity. Qed.

Lemma onFog_set f s fCtx :
  Canvas.context2d (fogCanvasRef s) = Some fCtx ->
  onFog f s = set_fogCanvasRef (Canvas.setContext (f fCtx) (fogCanvasRef s)) s.
Proof. intros H. unfold onFog. rewrite H. reflexivity. Qed.

Lemma handleFog_set w h s fCtx :
  Canvas.context2d (fogCanvasRef s) = Some fCtx ->
  handleFog w h s
  = set_fogCanvasRef
      (Canvas.setContext
         (if Qltb 0.1 (effectiveIntensity s)
          then deposit (effectiveIntensity s) (mouthPos s) w h fCtx else fCtx)
         (fogCanvasRef s)) s.
Proof.
  intros H. unfold handleFog. destruct (Qltb 0.1 _).
  - apply onFog_set, H.
  - apply state_ext; st_cbn; try reflexivity.
    apply canvas_ext; st_cbn; congruence.
Qed.

Lemma handleWiping_set env w h s fCtx :
  Canvas.context2d (fogCanvasRef s) = Some fCtx ->
  handleWiping env w h s
  = set_fogCanvasRef
      (Canvas.setContext (frameWiped env s w h fCtx) (fogCanvasRef s))
      (set_smoothedIndexTip (frameSmoothed env s w h)
         (set_handPresenceTime (framePresence env s) s)).
Proof.
  intros H. open_state s. destruct fog as [fw fh fx]. cbn in H. subst fx.
  unfold handleWiping, frameWiped, frameSmoothed, framePresence, presenceStart,
    onFog.
  st_cbn. destruct tip as [tip|]; [|reflexivity].
  destruct (Qeq_bool hpt 0); st_cbn.
  all: destruct (Qltb WIPE_DELAY_MS _); st_cbn; [|reflexivity].
  all: destruct sym; reflexivity.
Qed.

Lemma drawSnow_set env w h s c ctx :
  canvasRef s = Some c -> Canvas.context2d c = Some ctx ->
  drawSnow env w h s
  = set_snowflakes
      (fst (snowLoop (random env) w h 0 (snowflakes s)
              (Ctx.setFillStyle (Solid (white 0.8)) ctx)))
      (set_canvasRef
         (Some (Canvas.setContext
                  (snd (snowLoop (random env) w h 0 (snowflakes s)
                          (Ctx.setFillStyle (Solid (white 0.8)) ctx))) c)) s).
Proof. intros H1 H2. unfold drawSnow. rewrite H1, H2. reflexivity. Qed.

(** The flakes a frame leaves do not depend on the context they are drawn on. *)
Lemma snowLoop_flakes r w h fl : forall k c1 c2,
  fst (snowLoop r w h k fl c1) = fst (snowLoop r w h k fl c2).
Proof.
  induction fl as [|s rest IH]; intros k c1 c2; [reflexivity|].
  cbn [snowLoop]. unfold snowStep.
  destruct (Qltb h (Snowflake.y s + Snowflake.speed s)).
  all: match goal with
       | |- fst (let '(_, _) := snowLoop _ _ _ ?k _ ?c in _)
            = fst (let '(_, _) := snowLoop _ _ _ _ _ ?c' in _) =>
           specialize (IH k c c');
           destruct (snowLoop _ _ _ k _ c), (snowLoop _ _ _ k _ c')
       end; cbn [fst] in *; congruence.
Qed.

Lemma wipe_calls wx wy c :
  Ctx.calls (wipe wx wy c) = Ctx.calls c ++ [wipeCall (Ctx.globalAlpha c) wx wy].
Proof. reflexivity. Qed.

Lemma wipe_alpha wx wy c : Ctx.globalAlpha (wipe wx wy c) = Ctx.globalAlpha c.
Proof. reflexivity. Qed.

Lemma deposit_calls e m w h c :
  Ctx.calls (deposit e m w h c)
  = Ctx.calls c ++ [depositCall (Ctx.globalAlpha c) ((1 - Point.x m) * w)
                      (Point.y m * h) (100 + e * 150) (e * 0.04)].
Proof. reflexivity. Qed.

Lemma deposit_alpha e m w h c :
  Ctx.globalAlpha (deposit e m w h c) = Ctx.globalAlpha c.
Proof. reflexivity. Qed.

Ltac side := st_cbn; first [eassumption | reflexivity].
(** A frame that draws, in closed form: the cells it writes and what it
    paints on the fog surface. *)
Lemma animate_draws env s c ctx fCtx :
  videoSource s = true ->
  canvasRef s = Some c -> Canvas.context2d c = Some ctx ->
  Canvas.context2d (fogCanvasRef s) = Some fCtx ->
  exists ctx' fCtx',
    animate env s
    = mkState true (isSymmetry s) (breathIntensity s) (handDetected s)
        (peaceDetected s)
        (Some (Canvas.mk (Canvas.width c) (Canvas.height c) (Some ctx')))
        (Canvas.mk (Canvas.width (fogCanvasRef s))
           (Canvas.height (fogCanvasRef s)) (Some fCtx'))
        true (mouthPos s) (indexTipPos s)
        (frameSmoothed env s (Canvas.width c) (Canvas.height c))
        (framePresence env s)
        (fst (snowLoop (random env) (Canvas.width c) (Canvas.height c) 0
                (snowflakes s) Ctx.fresh))
        (isBreathingManual s) (innerWidth s) (innerHeight s)
    /\ Ctx.calls fCtx'
       = Ctx.calls fCtx
         ++ frameDeposit s (Ctx.globalAlpha fCtx) (Canvas.width c) (Canvas.height c)
         ++ frameWipes env s (Ctx.globalAlpha fCtx) (Canvas.width c) (Canvas.height c)
    /\ Ctx.globalAlpha fCtx' = Ctx.globalAlpha fCtx.
Proof.
  intros Hv Hc Hctx Hf.
  unfold animate. rewrite Hc, Hv, Hctx, Hf. cbn [negb].
  unfold frameDeposit, frameWipes.
  erewrite (onCtx_set _ s) by side.
  erewrite (onCtx_set (drawShine _ _)) by side.
  erewrite handleFog_set by side.
  unfold effectiveIntensity; st_cbn.
  erewrite handleWiping_set by side.
  unfold frameWiped, frameSmoothed, framePresence, presenceStart; st_cbn.
  erewrite (onCtx_set drawFogLayer) by side.
  st_cbn.
  erewrite drawSnow_set by side.
  st_cbn.
  rewrite (snowLoop_flakes _ _ _ _ _ _ Ctx.fresh).
  destruct (peaceDetected s) eqn:Epd.
  1: erewrite (onCtx_set (drawPeace _ _)) by side.
  all: unfold requestAnimationFrame.
  all: do 2 eexists; split; [apply state_ext; st_cbn; try reflexivity; try congruence|].
  all: try (apply canvas_ext; st_cbn; reflexivity).
  all: destruct (indexTipPos s); [destruct (Qltb WIPE_DELAY_MS _); [destruct (isSymmetry s)|]|].
  all: destruct (Qltb 0.1 _).
  all: rewrite ?wipe_calls, ?wipe_alpha, ?deposit_calls, ?deposit_alpha,
         <- ?app_assoc, ?app_nil_r; split; reflexivity.
Qed.

Lemma animate_cases env s :
  animate env s = s
  \/ exists c ctx fCtx,
       videoSource s = true /\ canvasRef s = Some c
       /\ Canvas.context2d c = Some ctx
       /\ Canvas.context2d (fogCanvasRef s) = Some fCtx.
Proof.
  destruct (canvasRef s) as [c|] eqn:Hc; [|left; now apply animate_no_canvas].
  destruct (videoSource s) eqn:Hv; [|left; now apply animate_no_video].
  destruct (Canvas.context2d c) as [ctx|] eqn:Hctx;
    [|left; now apply (animate_no_ctx env s c)].
  destruct (Canvas.context2d (fogCanvasRef s)) as [fCtx|] eqn:Hf;
    [|left; now apply animate_no_fog_ctx].
  right. exists c, ctx, fCtx. auto.
Qed.

Lemma ready_parts s :
  ready s ->
  exists c ctx fCtx,
    videoSource s = true /\ canvasRef s = Some c
    /\ Canvas.context2d c = Some ctx
    /\ Canvas.context2d (fogCanvasRef s) = Some fCtx
    /\ viewport s = (Canvas.width c, Canvas.height c).
Proof.
  intros (Hv & (c & ctx & Hc & Hctx) & (fCtx & Hf)).
  exists c, ctx, fCtx. unfold viewport. rewrite Hc. auto.
Qed.

(** ** What a frame paints on the fog surface *)

Lemma skipn_length_app {A} (l r : list A) : skipn (List.length l) (l ++ r) = r.
Proof. induction l as [|a l IH]; [reflexivity | exact IH]. Qed.

Lemma painted_same s : painted s s = [].
Proof. unfold painted. apply skipn_all. Qed.

Lemma painted_draws env s c ctx fCtx :
  videoSource s = true ->
  canvasRef s = Some c -> Canvas.context2d c = Some ctx ->
  Canvas.context2d (fogCanvasRef s) = Some fCtx ->
  painted s (animate env s)
  = frameDeposit s (Ctx.globalAlpha fCtx) (Canvas.width c) (Canvas.height c)
    ++ frameWipes env s (Ctx.globalAlpha fCtx) (Canvas.width c) (Canvas.height c).
Proof.
  intros Hv Hc Hctx Hf.
  destruct (animate_draws env s c ctx fCtx Hv Hc Hctx Hf) as (ctx' & fCtx' & E & Hcalls & _).
  unfold painted, fogCalls. rewrite E, Hf. st_cbn. rewrite Hcalls.
  apply skipn_length_app.
Qed.

Lemma filter_erase_deposit s ga w h :
  filter isErase (frameDeposit s ga w h) = [].
Proof. unfold frameDeposit. destruct (Qltb 0.1 _); reflexivity. Qed.

Lemma filter_erase_wipes env s ga w h :
  filter isErase (frameWipes env s ga w h) = frameWipes env s ga w h.
Proof.
  unfold frameWipes. destruct (indexTipPos s); [|reflexivity].
  destruct (Qltb WIPE_DELAY_MS _); [|reflexivity].
  destruct (isSymmetry s); reflexivity.
Qed.

Lemma filter_keep_deposit s ga w h :
  filter (fun d => negb (isErase d)) (frameDeposit s ga w h) = frameDeposit s ga w h.
Proof. unfold frameDeposit. destruct (Qltb 0.1 _); reflexivity. Qed.

Lemma filter_keep_wipes env s ga w h :
  filter (fun d => negb (isErase d)) (frameWipes env s ga w h) = [].
Proof.
  unfold frameWipes. destruct (indexTipPos s); [|reflexivity].
  destruct (Qltb WIPE_DELAY_MS _); [|reflexivity].
  destruct (isSymmetry s); reflexivity.
Qed.

Lemma erases_draws env s c ctx fCtx :
  videoSource s = true ->
  canvasRef s = Some c -> Canvas.context2d c = Some ctx ->
  Canvas.context2d (fogCanvasRef s) = Some fCtx ->
  erases env s
  = frameWipes env s (Ctx.globalAlpha fCtx) (Canvas.width c) (Canvas.height c).
Proof.
  intros Hv Hc Hctx Hf. unfold erases.
  rewrite (painted_draws env s c ctx fCtx Hv Hc Hctx Hf), filter_app.
  rewrite filter_erase_deposit, filter_erase_wipes. reflexivity.
Qed.

Lemma deposits_draws env s c ctx fCtx :
  videoSource s = true ->
  canvasRef s = Some c -> Canvas.context2d c = Some ctx ->
  Canvas.context2d (fogCanvasRef s) = Some fCtx ->
  deposits env s
  = frameDeposit s (Ctx.globalAlpha fCtx) (Canvas.width c) (Canvas.height c).
Proof.
  intros Hv Hc Hctx Hf. unfold deposits.
  rewrite (painted_draws env s c ctx fCtx Hv Hc Hctx Hf), filter_app.
  rewrite filter_keep_deposit, filter_keep_wipes. apply app_nil_r.
Qed.

Lemma erases_skipped env s : animate env s = s -> erases env s = [].
Proof. intros E. unfold erases. rewrite E, painted_same. reflexivity. Qed.

(** ** Runs of the component

    The transition system takes the host's [Math.sqrt] as a parameter. *)

Section Runs.

Variable Math_sqrt : Q -> Q.

(** ** Resize, commit and the other transitions *)

Lemma resize_shape s :
  exists cv fog, resize s = set_fogCanvasRef fog (set_canvasRef cv s).
Proof.
  unfold resize, onFog. destruct (canvasRef s) as [c|] eqn:Hc.
  - st_cbn. destruct (Canvas.context2d (fogCanvasRef s)); st_cbn;
      do 2 eexists; apply state_ext; st_cbn; reflexivity.
  - exists None, (fogCanvasRef s). apply state_ext; st_cbn; congruence.
Qed.

Lemma resize_draws s c fCtx :
  canvasRef s = Some c ->
  Canvas.context2d (fogCanvasRef s) = Some fCtx ->
  resize s
  = set_fogCanvasRef
      (Canvas.mk (innerWidth s) (innerHeight s)
         (Some (Ctx.mk 1 SourceOver (Solid (frost 0.15))
                  [Fill SourceOver 1 (Solid (frost 0.15))
                     (Rect 0 0 (innerWidth s) (innerHeight s))])))
      (set_canvasRef
         (Some (Canvas.mk (innerWidth s) (innerHeight s)
                  (Canvas.reset (Canvas.context2d c)))) s).
Proof.
  intros Hc Hf. unfold resize, onFog. rewrite Hc.
  unfold Canvas.setHeight, Canvas.setWidth. st_cbn.
  rewrite Hf. st_cbn. destruct (Canvas.context2d c); reflexivity.
Qed.

Ltac prove_ready :=
  unfold ready; st_cbn;
  split; [|split];
  [ first [assumption | reflexivity]
  | do 2 eexists; split; st_cbn; first [eassumption | reflexivity]
  | eexists; st_cbn; first [eassumption | reflexivity] ].

Lemma ready_resize s : ready s -> ready (resize s).
Proof.
  intros R. destruct (ready_parts s R) as (c & ctx & fCtx & Hv & Hc & Hctx & Hf & _).
  rewrite (resize_draws s c fCtx Hc Hf), Hctx.
  prove_ready.
Qed.

Lemma commit_shape old new :
  exists cv fog rq,
    commit old new = set_requestRef rq (set_fogCanvasRef fog (set_canvasRef cv new)).
Proof.
  unfold commit, animateEffect, animateCleanup, requestAnimationFrame,
    cancelAnimationFrame.
  destruct (animateChanged old new).
  - destruct (requestRef new);
      match goal with |- context [resize ?x] =>
        destruct (resize_shape x) as (cv & fog & E); rewrite E end;
      exists cv, fog, true; apply state_ext; st_cbn; reflexivity.
  - exists (canvasRef new), (fogCanvasRef new), (requestRef new).
    apply state_ext; st_cbn; reflexivity.
Qed.

Lemma ready_set_requestRef b s : ready s -> ready (set_requestRef b s).
Proof. intros R. exact R. Qed.

Lemma ready_commit old new : ready new -> ready (commit old new).
Proof.
  intros R. unfold commit, animateEffect, animateCleanup, requestAnimationFrame,
    cancelAnimationFrame.
  destruct (animateChanged old new); [|exact R].
  apply ready_set_requestRef, ready_resize.
  destruct (requestRef new); exact R.
Qed.

Lemma ready_animate env s : ready s -> ready (animate env s).
Proof.
  intros R. destruct (ready_parts s R) as (c & ctx & fCtx & Hv & Hc & Hctx & Hf & _).
  destruct (animate_draws env s c ctx fCtx Hv Hc Hctx Hf) as (ctx' & fCtx' & E & _).
  rewrite E. prove_ready.
Qed.

Lemma viewport_animate env s : viewport (animate env s) = viewport s.
Proof.
  destruct (animate_cases env s) as [E | (c & ctx & fCtx & Hv & Hc & Hctx & Hf)];
    [rewrite E; reflexivity|].
  destruct (animate_draws env s c ctx fCtx Hv Hc Hctx Hf) as (ctx' & fCtx' & E & _).
  rewrite E. unfold viewport. rewrite Hc. reflexivity.
Qed.

(** Case analysis on a transition: every goal is about a chain of setters
    over the state before, or about a frame. *)
Ltac chain_commit :=
  match goal with
  | |- context [commit ?o ?n] =>
      let cv := fresh "cv" in let fog := fresh "fog" in
      let rq := fresh "rq" in let E := fresh "E" in
      destruct (commit_shape o n) as (cv & fog & rq & E); rewrite E; clear E
  end.

Ltac chain_resize :=
  match goal with
  | |- context [resize ?x] =>
      let cv := fresh "cv" in let fog := fresh "fog" in let E := fresh "E" in
      destruct (resize_shape x) as (cv & fog & E); rewrite E; clear E
  end.

Ltac chain_animate env s :=
  let E := fresh "E" in
  destruct (animate_cases env s) as [E | (?c & ?ctx & ?fCtx & ?Hv & ?Hc & ?Hctx & ?Hf)];
  [ rewrite E; clear E
  | match goal with
    | Hv : videoSource s = true, Hc : canvasRef s = Some ?c,
      Hctx : Canvas.context2d ?c = Some ?ctx,
      Hf : Canvas.context2d (fogCanvasRef s) = Some ?fCtx |- _ =>
        let ctx' := fresh "ctx'" in let fCtx' := fresh "fCtx'" in
        let Hcalls := fresh "Hcalls" in let Halpha := fresh "Halpha" in
        destruct (animate_draws env s c ctx fCtx Hv Hc Hctx Hf)
          as (ctx' & fCtx' & E & Hcalls & Halpha);
        rewrite E; clear E
    end ].

Lemma ready_step s e : ready s -> ready (step Math_sqrt s e).
Proof.
  intros R. destruct e as [r|r|code|code| |w h|env]; cbn [step].
  - apply ready_commit. unfold handsOnResults.
    destruct r as [[|lm rest]|]; exact R.
  - apply ready_commit. unfold faceOnResults.
    destruct r as [[|lm rest]|]; exact R.
  - unfold handleKeyDown. destruct (String.eqb _ _); exact R.
  - unfold handleKeyUp. destruct (String.eqb _ _); exact R.
  - apply ready_commit. exact R.
  - apply ready_resize. exact R.
  - destruct (requestRef s); [|exact R]. apply ready_animate. exact R.
Qed.

Lemma ready_run events : forall s, ready s -> ready (run Math_sqrt s events).
Proof.
  induction events as [|e rest IH]; intros s R; [exact R|].
  cbn [run fold_left]. apply IH, ready_step, R.
Qed.

Lemma ready_mount random sym c ctx w h :
  Canvas.context2d c = Some ctx ->
  ready (mount random true sym (Some c) true w h).
Proof.
  intros Hctx. unfold mount, animateEffect.
  apply ready_set_requestRef, ready_resize.
  unfold initSnow, initialState, Canvas.create. prove_ready.
Qed.

(** ** Minimum and maximum on rationals *)

Ltac qminmax :=
  repeat match goal with
  | |- context [Qmax ?a ?b] =>
      let H := fresh "Hmax" in let m := fresh "m" in
      pose proof (Q.max_spec a b) as H; set (m := Qmax a b) in *; clearbody m;
      destruct H as [[? ?]|[? ?]]
  | |- context [Qmin ?a ?b] =>
      let H := fresh "Hmin" in let m := fresh "m" in
      pose proof (Q.min_spec a b) as H; set (m := Qmin a b) in *; clearbody m;
      destruct H as [[? ?]|[? ?]]
  | H : context [Qmax ?a ?b] |- _ =>
      let H := fresh "Hmax" in let m := fresh "m" in
      pose proof (Q.max_spec a b) as H; set (m := Qmax a b) in *; clearbody m;
      destruct H as [[? ?]|[? ?]]
  | H : context [Qmin ?a ?b] |- _ =>
      let H := fresh "Hmin" in let m := fresh "m" in
      pose proof (Q.min_spec a b) as H; set (m := Qmin a b) in *; clearbody m;
      destruct H as [[? ?]|[? ?]]
  end; try lra.

Lemma intensityOf_mono d1 d2 : d1 <= d2 -> intensityOf d1 <= intensityOf d2.
Proof. intros H. unfold intensityOf. qminmax. Qed.

Lemma intensityOf_range d : 0 <= intensityOf d <= 1.
Proof. unfold intensityOf. qminmax. Qed.

Lemma intensityOf_closed d : d <= 0.01 -> intensityOf d == 0.
Proof. intros H. unfold intensityOf. qminmax. Qed.

Lemma intensityOf_linear d :
  0.01 <= d -> (d - 0.01) * 15 <= 1 -> intensityOf d == (d - 0.01) * 15.
Proof. intros H1 H2. unfold intensityOf. qminmax. Qed.

Lemma intensityOf_saturated d : 1 <= (d - 0.01) * 15 -> intensityOf d == 1.
Proof. intros H. unfold intensityOf. qminmax. Qed.

Lemma face_intensity lm rest s :
  breathIntensity (faceOnResults Math_sqrt (Some (lm :: rest)) s)
  = intensityOf (lipDistance Math_sqrt (lm 13%nat) (lm 14%nat)).
Proof. reflexivity. Qed.

(** ** Transitions that detect no face *)

Lemma noface_step s e :
  detectsFace e = false ->
  mouthPos (step Math_sqrt s e) = mouthPos s
  /\ (breathIntensity s = 0 -> breathIntensity (step Math_sqrt s e) = 0).
Proof.
  intros Hno. destruct e as [r|r|code|code| |w h|env]; cbn [step].
  - chain_commit. unfold handsOnResults.
    destruct r as [[|lm rest]|]; st_cbn; auto.
  - chain_commit. unfold faceOnResults.
    destruct r as [[|lm rest]|]; [| discriminate Hno |]; st_cbn; auto.
  - unfold handleKeyDown. destruct (String.eqb _ _); st_cbn; auto.
  - unfold handleKeyUp. destruct (String.eqb _ _); st_cbn; auto.
  - chain_commit. st_cbn; auto.
  - chain_resize. st_cbn; auto.
  - destruct (requestRef s); [|auto].
    chain_animate env (set_requestRef false s); st_cbn; auto.
Qed.

Lemma noface_run events : forall s,
  forallb (fun e => negb (detectsFace e)) events = true ->
  mouthPos (run Math_sqrt s events) = mouthPos s
  /\ (breathIntensity s = 0 -> breathIntensity (run Math_sqrt s events) = 0).
Proof.
  induction events as [|e rest IH]; intros s Hno; [auto|].
  cbn [forallb] in Hno. apply andb_prop in Hno. destruct Hno as [He Hrest].
  apply negb_true_iff in He.
  destruct (noface_step s e He) as [Hm Hb].
  destruct (IH (step Math_sqrt s e) Hrest) as [Hm' Hb'].
  cbn [run fold_left]. fold (run Math_sqrt (step Math_sqrt s e) rest).
  split; [congruence | auto].
Qed.

(** * The claims *)

(** ** Breath *)

(** C5. For every face result that holds a face, the breath intensity is
    [clamp((d - 0.01) * 15, 0, 1)] with [d] the distance of lip landmarks
    13 and 14 as the handler computes it
    ([Math.sqrt(dx^2 + dy^2)] in normalized space); the intensity is
    non-decreasing in [d]; [d = 0.01] gives 0, [d = 0.04] gives 0.45, and
    from [d = 0.077] on (indeed from 0.01 + 1/15 on) it is 1. *)
Theorem breath_intensity_mapping :
  (forall lm rest s,
      breathIntensity (faceOnResults Math_sqrt (Some (lm :: rest)) s)
      = Qmin (Qmax ((Math_sqrt ((Point.x (lm 13%nat) - Point.x (lm 14%nat)) ^ 2
                                + (Point.y (lm 13%nat) - Point.y (lm 14%nat)) ^ 2)
                     - 0.01) * 15) 0) 1)
  /\ (forall lm rest s lm' rest' s',
         lipDistance Math_sqrt (lm 13%nat) (lm 14%nat)
         <= lipDistance Math_sqrt (lm' 13%nat) (lm' 14%nat) ->
         breathIntensity (faceOnResults Math_sqrt (Some (lm :: rest)) s)
         <= breathIntensity (faceOnResults Math_sqrt (Some (lm' :: rest')) s'))
  /\ (forall lm rest s,
         let d := lipDistance Math_sqrt (lm 13%nat) (lm 14%nat) in
         let i := breathIntensity (faceOnResults Math_sqrt (Some (lm :: rest)) s) in
         0 <= i <= 1
         /\ (d == 0.01 -> i == 0)
         /\ (d == 0.04 -> i == 0.45)
         /\ (0.01 + (1 # 15) <= d -> i == 1)
         /\ (0.077 <= d -> i == 1)).
Proof.
  split; [|split].
  - intros lm rest s. reflexivity.
  - intros lm rest s lm' rest' s' H. rewrite !face_intensity.
    apply intensityOf_mono, H.
  - intros lm rest s d i. subst i. rewrite face_intensity. fold d.
    split; [apply intensityOf_range|].
    split; [intros H; apply intensityOf_closed; lra|].
    split; [intros H; rewrite intensityOf_linear; lra|].
    split; intros H; apply intensityOf_saturated; lra.
Qed.

(** C8. A face result without a face (an undefined or an empty landmark
    list) sets the breath intensity to 0 at once, whatever it was, and
    leaves the mouth point as it is; so does the whole transition. *)
Theorem face_loss_transition (r : Results) (s : State) :
  r = None \/ r = Some [] ->
  breathIntensity (faceOnResults Math_sqrt r s) = 0
  /\ mouthPos (faceOnResults Math_sqrt r s) = mouthPos s
  /\ breathIntensity (step Math_sqrt s (FaceResults r)) = 0
  /\ mouthPos (step Math_sqrt s (FaceResults r)) = mouthPos s.
Proof.
  intros [-> | ->]; cbn [step]; chain_commit;
    unfold faceOnResults; st_cbn; auto.
Qed.

(** ** Fog surface *)

(** C2. On a frame that draws, a deposit is painted on the fog surface if
    and only if the effective intensity
    [max(breathIntensity, manual ? 0.8 : 0)] exceeds 0.1; it is one
    source-over fill of a disc centred at the mirrored mouth position
    [((1 - x) * width, y * height)], of radius [100 + effective * 150],
    with a radial gradient whose centre alpha is [effective * 0.04]. *)
Theorem fog_deposit env s c ctx fCtx :
  videoSource s = true ->
  canvasRef s = Some c -> Canvas.context2d c = Some ctx ->
  Canvas.context2d (fogCanvasRef s) = Some fCtx ->
  let effective :=
    Qmax (breathIntensity s) (if isBreathingManual s then 0.8 else 0) in
  let cx := (1 - Point.x (mouthPos s)) * Canvas.width c in
  let cy := Point.y (mouthPos s) * Canvas.height c in
  let radius := 100 + effective * 150 in
  (deposits env s <> [] <-> 0.1 < effective)
  /\ (0.1 < effective ->
      deposits env s
      = [Fill SourceOver (Ctx.globalAlpha fCtx)
           (RadialGradient cx cy 0 cx cy radius
              [(0, rgba 200 220 240 (effective * 0.04));
               (0.6, rgba 200 220 240 (effective * 0.04 * 0.4));
               (1, rgba 200 220 240 0)])
           (Disc cx cy radius)]).
Proof.
  intros Hv Hc Hctx Hf effective cx cy radius.
  rewrite (deposits_draws env s c ctx fCtx Hv Hc Hctx Hf).
  unfold frameDeposit, effectiveIntensity. fold effective.
  destruct (Qltb 0.1 effective) eqn:E.
  - apply Qltb_true in E. split; [split; [auto | discriminate] | reflexivity].
  - apply Qltb_false in E. split; [split; [congruence | lra] | lra].
Qed.

(** C9. The fog surface is seeded: mounting the component on its canvas
    (through the first call of [resize]) and every later resize of the
    window, with the fog context at hand, leave the fog canvas at the
    window's size, holding exactly one fill of its whole rectangle with
    [rgba(200, 220, 240, 0.15)], painted source-over at full alpha; so the
    surface is not blank before any deposit. *)
Theorem fog_seeded :
  (forall random video symmetry c w h,
      let s := mount random video symmetry (Some c) true w h in
      fogCalls s
      = [Fill SourceOver 1 (Solid (rgba 200 220 240 0.15)) (Rect 0 0 w h)]
      /\ Canvas.width (fogCanvasRef s) = w
      /\ Canvas.height (fogCanvasRef s) = h)
  /\ (forall s c fCtx w h,
         canvasRef s = Some c ->
         Canvas.context2d (fogCanvasRef s) = Some fCtx ->
         let s' := step Math_sqrt s (WindowResize w h) in
         fogCalls s'
         = [Fill SourceOver 1 (Solid (rgba 200 220 240 0.15)) (Rect 0 0 w h)]
         /\ Canvas.width (fogCanvasRef s') = w
         /\ Canvas.height (fogCanvasRef s') = h).
Proof.
  split.
  - intros random video symmetry c w h s. subst s.
    unfold mount, animateEffect, requestAnimationFrame.
    erewrite resize_draws;
      [| unfold initSnow, initialState; st_cbn; reflexivity
       | unfold initSnow, initialState, Canvas.create; st_cbn; reflexivity].
    unfold fogCalls. st_cbn. auto.
  - intros s c fCtx w h Hc Hf s'. subst s'. cbn [step].
    erewrite resize_draws; [| st_cbn; eassumption..].
    unfold fogCalls. st_cbn. auto.
Qed.

(** C6. On a frame whose wipe fires, the erase is painted at the smoothed
    fingertip [(x, y)]; with symmetry on, a second erase of the same radius
    and falloff is painted at [(width - x, y)], and with symmetry off the
    frame paints exactly one erase. *)
Theorem symmetry_fan_out env s c ctx fCtx :
  videoSource s = true ->
  canvasRef s = Some c -> Canvas.context2d c = Some ctx ->
  Canvas.context2d (fogCanvasRef s) = Some fCtx ->
  erases env s <> [] ->
  let erase := fun ex ey =>
    Fill DestinationOut (Ctx.globalAlpha fCtx)
      (RadialGradient ex ey (45 * 0.2) ex ey 45
         [(0, rgba 0 0 0 1); (0.8, rgba 0 0 0 0.4); (1, rgba 0 0 0 0)])
      (Disc ex ey 45) in
  exists p,
    smoothedIndexTip (animate env s) = Some p
    /\ (isSymmetry s = true ->
        erases env s
        = [erase (Point.x p) (Point.y p);
           erase (Canvas.width c - Point.x p) (Point.y p)])
    /\ (isSymmetry s = false ->
        erases env s = [erase (Point.x p) (Point.y p)]).
Proof.
  intros Hv Hc Hctx Hf Hne erase.
  rewrite (erases_draws env s c ctx fCtx Hv Hc Hctx Hf) in *.
  destruct (animate_draws env s c ctx fCtx Hv Hc Hctx Hf) as (ctx' & fCtx' & E & _).
  rewrite E. st_cbn. clear E.
  unfold frameWipes, frameSmoothed in *.
  destruct (indexTipPos s) as [tip|]; [|congruence].
  destruct (Qltb WIPE_DELAY_MS _); [|congruence].
  eexists. split; [reflexivity|].
  split; intros ->; reflexivity.
Qed.

(** C10. The mouth point starts at normalized (0.5, 0.5) and stays there
    as long as no face result holds a face; if the manual breath is then
    active, a frame that draws deposits fog centred at the middle of the
    viewport, with the radius and alpha of intensity 0.8. *)
Theorem manual_breath_before_any_face random symmetry c ctx w h events env :
  Canvas.context2d c = Some ctx ->
  forallb (fun e => negb (detectsFace e)) events = true ->
  let s := run Math_sqrt (mount random true symmetry (Some c) true w h) events in
  isBreathingManual s = true ->
  mouthPos s = Point.mk 0.5 0.5
  /\ exists ga cx cy,
       deposits env s = [depositCall ga cx cy (100 + 0.8 * 150) (0.8 * 0.04)]
       /\ cx == fst (viewport s) / 2
       /\ cy == snd (viewport s) / 2.
Proof.
  intros Hctx Hno s Hman.
  pose proof (ready_run events _ (ready_mount random symmetry c ctx w h Hctx)) as R.
  fold s in R.
  destruct (noface_run events
              (mount random true symmetry (Some c) true w h) Hno) as [Hm Hb].
  fold s in Hm, Hb.
  assert (Hm0 : mouthPos s = Point.mk 0.5 0.5) by (rewrite Hm; reflexivity).
  assert (Hb0 : breathIntensity s = 0) by (apply Hb; reflexivity).
  split; [exact Hm0|].
  destruct (ready_parts s R) as (c' & ctx' & fCtx & Hv & Hc & Hctx' & Hf & Hvp).
  rewrite (deposits_draws env s c' ctx' fCtx Hv Hc Hctx' Hf), Hvp.
  unfold frameDeposit, effectiveIntensity. rewrite Hm0, Hb0, Hman.
  replace (Qmax 0 0.8) with 0.8 by reflexivity.
  replace (Qltb 0.1 0.8) with true by reflexivity.
  do 3 eexists. split; [reflexivity|].
  cbn [fst snd Point.x Point.y]. split; field.
Qed.


(** ** Wipe gate *)

(** The fog calls of a display refresh are those of its [animate]. *)
Lemma painted_frame env s :
  filter isErase (painted s (step Math_sqrt s (AnimationFrame env)))
  = if requestRef s then erases env (set_requestRef false s) else [].
Proof.
  cbn [step]. destruct (requestRef s); [reflexivity|].
  rewrite painted_same. reflexivity.
Qed.

Lemma erases_gate env s :
  ready s ->
  (erases env s <> []
   <-> indexTipPos s <> None
       /\ WIPE_DELAY_MS < nowAtElapsed env - presenceStart env s).
Proof.
  intros R. destruct (ready_parts s R) as (c & ctx & fCtx & Hv & Hc & Hctx & Hf & _).
  rewrite (erases_draws env s c ctx fCtx Hv Hc Hctx Hf). unfold frameWipes.
  destruct (indexTipPos s) as [tip|]; [|split; [congruence | intros [H _]; congruence]].
  destruct (Qltb WIPE_DELAY_MS _) eqn:E.
  - apply Qltb_true in E. split; [intros _; split; [discriminate | exact E] | discriminate].
  - apply Qltb_false in E. split; [congruence | intros [_ H]; lra].
Qed.

(** The timer is unset or not before [T]. *)
Lemma presenceStart_bound env s T :
  handPresenceTime s == 0 \/ T <= handPresenceTime s ->
  T <= nowAtSet env ->
  T <= presenceStart env s.
Proof.
  intros Hinv Hnow. unfold presenceStart.
  destruct (Qeq_bool (handPresenceTime s) 0) eqn:E; [exact Hnow|].
  apply Qeq_bool_false in E. destruct Hinv; [contradiction | assumption].
Qed.

Lemma erases_bound env s T :
  handPresenceTime s == 0 \/ T <= handPresenceTime s ->
  T <= nowAtSet env ->
  erases env s <> [] ->
  T + WIPE_DELAY_MS < nowAtElapsed env.
Proof.
  intros Hinv Hnow Hne.
  destruct (animate_cases env s) as [E | (c & ctx & fCtx & Hv & Hc & Hctx & Hf)];
    [rewrite (erases_skipped env s E) in Hne; congruence|].
  assert (R : ready s).
  { unfold ready. split; [exact Hv|]. split; [exists c, ctx | exists fCtx]; auto. }
  apply (erases_gate env s R) in Hne. destruct Hne as [_ Hgate].
  pose proof (presenceStart_bound env s T Hinv Hnow). lra.
Qed.

Lemma timer_step s e T :
  handPresenceTime s == 0 \/ T <= handPresenceTime s ->
  (forall env, e = AnimationFrame env -> T <= nowAtSet env) ->
  handPresenceTime (step Math_sqrt s e) == 0 \/ T <= handPresenceTime (step Math_sqrt s e).
Proof.
  intros Hinv Hnow. destruct e as [r|r|code|code| |w h|env]; cbn [step].
  - chain_commit. unfold handsOnResults.
    destruct r as [[|lm rest]|]; st_cbn; auto; left; reflexivity.
  - chain_commit. unfold faceOnResults.
    destruct r as [[|lm rest]|]; st_cbn; auto.
  - unfold handleKeyDown. destruct (String.eqb _ _); st_cbn; auto.
  - unfold handleKeyUp. destruct (String.eqb _ _); st_cbn; auto.
  - chain_commit. st_cbn; auto.
  - chain_resize. st_cbn; auto.
  - destruct (requestRef s); [|auto].
    chain_animate env (set_requestRef false s); st_cbn; [auto|].
    unfold framePresence. st_cbn.
    destruct (indexTipPos s); [|auto].
    right. apply (presenceStart_bound env (set_requestRef false s) T); auto.
Qed.

Lemma eraseTimes_bound events : forall s T,
  handPresenceTime s == 0 \/ T <= handPresenceTime s ->
  (forall env, In (AnimationFrame env) events -> T <= nowAtSet env) ->
  Forall (fun t => T + WIPE_DELAY_MS < t) (eraseTimes Math_sqrt s events).
Proof.
  induction events as [|e rest IH]; intros s T Hinv Hnow; [constructor|].
  cbn [eraseTimes]. apply Forall_app. split.
  - destruct e as [r|r|code|code| |w h|env]; try constructor.
    rewrite painted_frame. destruct (requestRef s); [|constructor].
    apply Forall_forall. intros t Hin. apply in_map_iff in Hin.
    destruct Hin as (d & <- & Hd).
    apply (erases_bound env (set_requestRef false s) T).
    + exact Hinv.
    + apply Hnow. left. reflexivity.
    + intros E. rewrite E in Hd. exact Hd.
  - apply IH.
    + apply timer_step; [exact Hinv|].
      intros env ->. apply Hnow. left. reflexivity.
    + intros env Hin. apply Hnow. right. exact Hin.
Qed.

Lemma animate_presence env s :
  ready s -> indexTipPos s <> None ->
  handPresenceTime (animate env s) = presenceStart env s.
Proof.
  intros R Htip.
  destruct (ready_parts s R) as (c & ctx & fCtx & Hv & Hc & Hctx & Hf & _).
  destruct (animate_draws env s c ctx fCtx Hv Hc Hctx Hf) as (ctx' & fCtx' & E & _).
  rewrite E. st_cbn. unfold framePresence.
  destruct (indexTipPos s); [reflexivity | congruence].
Qed.

(** While no fingertip is there the timer is unset. *)
Lemma absent_unset_step s e :
  (indexTipPos s = None -> handPresenceTime s = 0) ->
  indexTipPos (step Math_sqrt s e) = None -> handPresenceTime (step Math_sqrt s e) = 0.
Proof.
  intros Hinv. destruct e as [r|r|code|code| |w h|env]; cbn [step].
  - chain_commit. unfold handsOnResults.
    destruct r as [[|lm rest]|]; st_cbn; auto; discriminate.
  - chain_commit. unfold faceOnResults.
    destruct r as [[|lm rest]|]; st_cbn; auto.
  - unfold handleKeyDown. destruct (String.eqb _ _); st_cbn; auto.
  - unfold handleKeyUp. destruct (String.eqb _ _); st_cbn; auto.
  - chain_commit. st_cbn; auto.
  - chain_resize. st_cbn; auto.
  - destruct (requestRef s); [|auto].
    chain_animate env (set_requestRef false s); st_cbn; [auto|].
    unfold framePresence. st_cbn. intros Htip. rewrite Htip. auto.
Qed.

Lemma absent_unset_run events : forall s,
  (indexTipPos s = None -> handPresenceTime s = 0) ->
  indexTipPos (run Math_sqrt s events) = None -> handPresenceTime (run Math_sqrt s events) = 0.
Proof.
  induction events as [|e rest IH]; intros s Hinv; [exact Hinv|].
  cbn [run fold_left]. apply IH. apply absent_unset_step, Hinv.
Qed.

Lemma mount_unset random video symmetry canvas fog2d w h :
  handPresenceTime (mount random video symmetry canvas fog2d w h) = 0.
Proof.
  unfold mount, animateEffect, requestAnimationFrame.
  chain_resize. reflexivity.
Qed.


(** ** Smoothing *)











Lemma animate_requests env s : ready s -> requestRef (animate env s) = true.
Proof.
  intros R.
  destruct (ready_parts s R) as (c & ctx & fCtx & Hv & Hc & Hctx & Hf & Hvp).
  destruct (animate_draws env s c ctx fCtx Hv Hc Hctx Hf) as (ctx' & fCtx' & E & _).
  rewrite E. reflexivity.
Qed.





(** ** Snow *)

Lemma initSnowLoop_length random n : forall i arr,
  List.length (initSnowLoop random i n arr) = (n + List.length arr)%nat.
Proof.
  induction n as [|n IH]; intros i arr; [reflexivity|].
  cbn [initSnowLoop]. rewrite IH, length_app. cbn [List.length]. lia.
Qed.

Lemma initSnowLoop_forall (P : Snowflake.t -> Prop) random n :
  (forall i, P (newSnowflake random i)) ->
  forall i arr, Forall P arr -> Forall P (initSnowLoop random i n arr).
Proof.
  intros Hnew. induction n as [|n IH]; intros i arr Harr; [exact Harr|].
  cbn [initSnowLoop]. apply IH. apply Forall_app. split; [exact Harr|].
  constructor; [apply Hnew | constructor].
Qed.

Lemma newSnowflake_bounds random i :
  (forall k, 0 <= random k < 1) ->
  0 <= Snowflake.size (newSnowflake random i) <= 4
  /\ 0.2 <= Snowflake.opacity (newSnowflake random i) <= 0.7.
Proof.
  intros Hr. unfold newSnowflake. cbn [Snowflake.size Snowflake.opacity].
  pose proof (Hr (6 * i + 2)%nat). pose proof (Hr (6 * i + 4)%nat).
  split; split; lra.
Qed.

(** One flake, one frame. *)
Lemma snowStep_flake r w h k f ctx :
  let f' := fst (fst (snowStep r w h k f ctx)) in
  Snowflake.size f' = Snowflake.size f
  /\ Snowflake.speed f' = Snowflake.speed f
  /\ Snowflake.opacity f' = Snowflake.opacity f
  /\ Snowflake.wind f' = Snowflake.wind f
  /\ (h < Snowflake.y f + Snowflake.speed f ->
      Snowflake.y f' = -10 /\ Snowflake.x f' = r k * w)
  /\ (Snowflake.y f + Snowflake.speed f <= h ->
      Snowflake.y f' = Snowflake.y f + Snowflake.speed f
      /\ Snowflake.x f' = Snowflake.x f + Snowflake.wind f).
Proof.
  unfold snowStep. destruct (Qltb h _) eqn:E; cbn.
  - apply Qltb_true in E. repeat split; auto; lra.
  - apply Qltb_false in E. repeat split; auto; lra.
Qed.

Lemma snowStep_below r w h k f ctx :
  -10 <= h -> Snowflake.y (fst (fst (snowStep r w h k f ctx))) <= h.
Proof.
  intros Hh. unfold snowStep. destruct (Qltb h _) eqn:E; cbn.
  - exact Hh.
  - apply Qltb_false in E. exact E.
Qed.

Lemma snowLoop_cons r w h k f rest ctx :
  fst (snowLoop r w h k (f :: rest) ctx)
  = fst (fst (snowStep r w h k f ctx))
    :: fst (snowLoop r w h (snd (snowStep r w h k f ctx)) rest
              (snd (fst (snowStep r w h k f ctx)))).
Proof.
  cbn [snowLoop]. destruct (snowStep r w h k f ctx) as [[f' ctx'] k'].
  cbn [fst snd]. destruct (snowLoop r w h k' rest ctx'). reflexivity.
Qed.

Lemma snowLoop_length r w h fl : forall k ctx,
  List.length (fst (snowLoop r w h k fl ctx)) = List.length fl.
Proof.
  induction fl as [|f rest IH]; intros k ctx; [reflexivity|].
  rewrite snowLoop_cons. cbn [List.length]. rewrite IH. reflexivity.
Qed.

Lemma snowLoop_forall (P : Snowflake.t -> Prop) r w h fl :
  (forall k f ctx, P f -> P (fst (fst (snowStep r w h k f ctx)))) ->
  forall k ctx, Forall P fl -> Forall P (fst (snowLoop r w h k fl ctx)).
Proof.
  intros Hstep. induction fl as [|f rest IH]; intros k ctx Hall; [constructor|].
  inversion Hall; subst. rewrite snowLoop_cons. constructor; auto.
Qed.

Lemma snowLoop_below r w h fl :
  -10 <= h ->
  forall k ctx, Forall (fun f => Snowflake.y f <= h) (fst (snowLoop r w h k fl ctx)).
Proof.
  intros Hh. induction fl as [|f rest IH]; intros k ctx; [constructor|].
  rewrite snowLoop_cons. constructor; [apply snowStep_below, Hh | apply IH].
Qed.

Lemma animate_snow env s :
  animate env s = s
  \/ snowflakes (animate env s)
     = fst (snowLoop (random env) (fst (viewport s)) (snd (viewport s)) 0
              (snowflakes s) Ctx.fresh).
Proof.
  destruct (animate_cases env s) as [E | (c & ctx & fCtx & Hv & Hc & Hctx & Hf)];
    [left; exact E | right].
  destruct (animate_draws env s c ctx fCtx Hv Hc Hctx Hf) as (ctx' & fCtx' & E & _).
  rewrite E. unfold viewport. rewrite Hc. reflexivity.
Qed.

(** Flakes are only touched by frames, and a frame keeps their number and
    every property of a flake that [snowStep] keeps. *)
Lemma snow_step (P : Snowflake.t -> Prop) s e :
  (forall r w h k f ctx, P f -> P (fst (fst (snowStep r w h k f ctx)))) ->
  List.length (snowflakes (step Math_sqrt s e)) = List.length (snowflakes s)
  /\ (Forall P (snowflakes s) -> Forall P (snowflakes (step Math_sqrt s e))).
Proof.
  intros Hstep. destruct e as [r|r|code|code| |w h|env]; cbn [step].
  - chain_commit. unfold handsOnResults.
    destruct r as [[|lm rest]|]; st_cbn; auto.
  - chain_commit. unfold faceOnResults.
    destruct r as [[|lm rest]|]; st_cbn; auto.
  - unfold handleKeyDown. destruct (String.eqb _ _); st_cbn; auto.
  - unfold handleKeyUp. destruct (String.eqb _ _); st_cbn; auto.
  - chain_commit. st_cbn; auto.
  - chain_resize. st_cbn; auto.
  - destruct (requestRef s); [|auto].
    destruct (animate_snow env (set_requestRef false s)) as [E | E];
      rewrite E; [st_cbn; auto|].
    st_cbn. split; [apply snowLoop_length | apply snowLoop_forall, Hstep].
Qed.

Lemma snow_run (P : Snowflake.t -> Prop) events :
  (forall r w h k f ctx, P f -> P (fst (fst (snowStep r w h k f ctx)))) ->
  forall s,
    List.length (snowflakes (run Math_sqrt s events)) = List.length (snowflakes s)
    /\ (Forall P (snowflakes s) -> Forall P (snowflakes (run Math_sqrt s events))).
Proof.
  intros Hstep. induction events as [|e rest IH]; intros s; [auto|].
  cbn [run fold_left]. fold (run Math_sqrt (step Math_sqrt s e) rest).
  destruct (snow_step P s e Hstep) as [Hl Hf].
  destruct (IH (step Math_sqrt s e)) as [Hl' Hf'].
  split; [congruence | auto].
Qed.

Lemma mount_snow random video symmetry canvas fog2d w h :
  snowflakes (mount random video symmetry canvas fog2d w h)
  = initSnowLoop random 0 SNOW_COUNT [].
Proof.
  unfold mount, animateEffect, requestAnimationFrame.
  chain_resize. reflexivity.
Qed.


(** ** The visible canvas *)

Lemma last_cons_default {A} (l : list A) : forall a d, last (a :: l) d = last l a.
Proof.
  induction l as [|b l IH]; intros a d; [reflexivity|].
  change (last (a :: b :: l) d) with (last (b :: l) d).
  rewrite (IH b d), (IH b a). reflexivity.
Qed.

Lemma snowLoop_snd r w h k f rest ctx :
  snd (snowLoop r w h k (f :: rest) ctx)
  = snd (snowLoop r w h (snd (snowStep r w h k f ctx)) rest
           (Ctx.fillDisc (Snowflake.x f) (Snowflake.y f) (Snowflake.size f)
              (Ctx.setGlobalAlpha (Snowflake.opacity f) ctx))).
Proof.
  cbn [snowLoop]. unfold snowStep.
  destruct (Qltb h _); cbn [fst snd];
    match goal with |- context [snowLoop ?a ?b ?c ?d ?e ?g] =>
      destruct (snowLoop a b c d e g) end; reflexivity.
Qed.

(** The snow loop paints one disc per flake, in list order, each under the
    flake's own opacity, and restores nothing. *)
Lemma snowLoop_ctx r w h fl : forall k ctx,
  Ctx.calls (snd (snowLoop r w h k fl ctx))
  = Ctx.calls ctx
    ++ map (fun f => Fill (Ctx.globalCompositeOperation ctx) (Snowflake.opacity f)
                       (Ctx.fillStyle ctx)
                       (Disc (Snowflake.x f) (Snowflake.y f) (Snowflake.size f))) fl
  /\ Ctx.globalCompositeOperation (snd (snowLoop r w h k fl ctx))
     = Ctx.globalCompositeOperation ctx
  /\ Ctx.fillStyle (snd (snowLoop r w h k fl ctx)) = Ctx.fillStyle ctx
  /\ Ctx.globalAlpha (snd (snowLoop r w h k fl ctx))
     = last (map Snowflake.opacity fl) (Ctx.globalAlpha ctx).
Proof.
  induction fl as [|f rest IH]; intros k ctx.
  - cbn. rewrite app_nil_r. auto.
  - rewrite snowLoop_snd.
    destruct (IH (snd (snowStep r w h k f ctx))
                (Ctx.fillDisc (Snowflake.x f) (Snowflake.y f) (Snowflake.size f)
                   (Ctx.setGlobalAlpha (Snowflake.opacity f) ctx)))
      as (Hc & Ho & Hs & Ha).
    rewrite Hc, Ho, Hs, Ha. cbn [Ctx.fillDisc Ctx.fill Ctx.emit Ctx.setGlobalAlpha
      Ctx.calls Ctx.globalCompositeOperation Ctx.fillStyle Ctx.globalAlpha map].
    rewrite <- app_assoc, last_cons_default. repeat split.
Qed.

Lemma snowLoop_body r w h fl : forall k ctx,
  map body (fst (snowLoop r w h k fl ctx)) = map body fl.
Proof.
  induction fl as [|f rest IH]; intros k ctx; [reflexivity|].
  rewrite snowLoop_cons. cbn [map]. rewrite IH. f_equal.
  unfold snowStep, body. destruct (Qltb h _); reflexivity.
Qed.

(** The context of the visible canvas after a frame that draws. *)
Lemma animate_canvas env s c ctx fCtx :
  videoSource s = true ->
  canvasRef s = Some c -> Canvas.context2d c = Some ctx ->
  Canvas.context2d (fogCanvasRef s) = Some fCtx ->
  mainCtx (animate env s)
  = Some (frameCtx env s (Canvas.width c) (Canvas.height c) ctx).
Proof.
  intros Hv Hc Hctx Hf.
  unfold animate. rewrite Hc, Hv, Hctx, Hf. cbn [negb].
  erewrite (onCtx_set _ s) by side.
  erewrite (onCtx_set (drawShine _ _)) by side.
  erewrite handleFog_set by side.
  erewrite handleWiping_set by side.
  erewrite (onCtx_set drawFogLayer) by side.
  st_cbn.
  erewrite drawSnow_set by side.
  st_cbn. unfold frameCtx, mainCtx.
  destruct (peaceDetected s) eqn:Epd.
  1: erewrite (onCtx_set (drawPeace _ _)) by side.
  all: unfold requestAnimationFrame; st_cbn; reflexivity.
Qed.

Lemma frameCtx_calls env s w h ctx :
  Ctx.calls (frameCtx env s w h ctx)
  = Ctx.calls ctx
    ++ [DrawVideo (Ctx.globalAlpha ctx) w h;
        Fill (Ctx.globalCompositeOperation ctx) (Ctx.globalAlpha ctx)
          (LinearGradient 0 0 w h [(0, white 0.02); (0.5, white 0.05); (1, white 0.02)])
          (Rect 0 0 w h);
        DrawFog FOG_OPACITY_LIMIT]
    ++ map (flakeDisc (Ctx.globalCompositeOperation ctx)) (snowflakes s)
    ++ (if peaceDetected s
        then [FillText 0.3 (Solid (white 1)) PeaceGlyph (w / 2) (h / 2 + 70)]
        else []).
Proof.
  unfold frameCtx.
  match goal with |- context [snowLoop ?a ?b ?c ?d ?e ?g] =>
    destruct (snowLoop_ctx a b c e d g) as (Hc & _);
    set (r := snowLoop a b c d e g) in * end.
  destruct (peaceDetected s).
  - unfold drawPeace at 1. cbn [Ctx.emit Ctx.calls]. rewrite Hc.
    cbn. rewrite <- !app_assoc. reflexivity.
  - rewrite Hc. cbn. rewrite app_nil_r, <- !app_assoc. reflexivity.
Qed.

Lemma frameCtx_alpha env s w h ctx :
  Ctx.globalAlpha (frameCtx env s w h ctx)
  = last (map Snowflake.opacity (snowflakes s)) (Ctx.globalAlpha ctx)
  /\ Ctx.globalCompositeOperation (frameCtx env s w h ctx)
     = Ctx.globalCompositeOperation ctx.
Proof.
  unfold frameCtx.
  match goal with |- context [snowLoop ?a ?b ?c ?d ?e ?g] =>
    destruct (snowLoop_ctx a b c e d g) as (_ & Ho & _ & Ha);
    set (r := snowLoop a b c d e g) in * end.
  destruct (peaceDetected s); cbn [drawPeace Ctx.emit Ctx.globalAlpha
    Ctx.globalCompositeOperation]; rewrite Ho, Ha; split; reflexivity.
Qed.

(** X1. A frame that draws composites, on top of what the visible canvas
    holds, in this order: the video frame, the shine gradient over the whole
    canvas, the fog layer at opacity 0.85, one white disc per particle in
    list order at the particle's position before it moves and under its own
    opacity, and last the peace glyph at (w/2, h/2 + 70) exactly when the
    peace sign is detected.  Video and shine are drawn under the global
    alpha the context had when the frame began. *)
Theorem frame_compositing env s c ctx fCtx :
  videoSource s = true ->
  canvasRef s = Some c -> Canvas.context2d c = Some ctx ->
  Canvas.context2d (fogCanvasRef s) = Some fCtx ->
  drawn s (animate env s)
  = [DrawVideo (Ctx.globalAlpha ctx) (Canvas.width c) (Canvas.height c);
     Fill (Ctx.globalCompositeOperation ctx) (Ctx.globalAlpha ctx)
       (LinearGradient 0 0 (Canvas.width c) (Canvas.height c)
          [(0, white 0.02); (0.5, white 0.05); (1, white 0.02)])
       (Rect 0 0 (Canvas.width c) (Canvas.height c));
     DrawFog 0.85]
    ++ map (flakeDisc (Ctx.globalCompositeOperation ctx)) (snowflakes s)
    ++ (if peaceDetected s
        then [FillText 0.3 (Solid (white 1)) PeaceGlyph
                (Canvas.width c / 2) (Canvas.height c / 2 + 70)]
        else []).
Proof.
  intros Hv Hc Hctx Hf. unfold drawn, mainCalls.
  rewrite (animate_canvas env s c ctx fCtx Hv Hc Hctx Hf).
  unfold mainCtx. rewrite Hc, Hctx, frameCtx_calls.
  apply skipn_length_app.
Qed.

(** ** The fog surface between two runs of the effect *)

(** X3. A run of [animate] never clears or repaints the fog surface: it only
    appends, first at most one breath deposit, then the erase discs; at
    most two erase discs, at most one without symmetry, none without a
    fingertip.  This holds in every state, also where [animate] gives up. *)
Theorem fog_frame_appends env s :
  fogCalls (animate env s) = fogCalls s ++ deposits env s ++ erases env s
  /\ (List.length (deposits env s) <= 1)%nat
  /\ (List.length (erases env s) <= if isSymmetry s then 2 else 1)%nat
  /\ (indexTipPos s = None -> erases env s = []).
Proof.
  destruct (animate_cases env s) as [E | (c & ctx & fCtx & Hv & Hc & Hctx & Hf)].
  - unfold deposits, erases. rewrite E, painted_same. cbn [filter List.length].
    rewrite app_nil_r. repeat split; [lia | destruct (isSymmetry s); lia].
  - rewrite (deposits_draws env s c ctx fCtx Hv Hc Hctx Hf).
    rewrite (erases_draws env s c ctx fCtx Hv Hc Hctx Hf).
    destruct (animate_draws env s c ctx fCtx Hv Hc Hctx Hf)
      as (ctx' & fCtx' & E & Hcalls & _).
    unfold fogCalls at 1 2. rewrite E, Hf. st_cbn.
    split; [exact Hcalls|].
    unfold frameDeposit, frameWipes. repeat split.
    + destruct (Qltb 0.1 _); cbn [List.length]; lia.
    + destruct (indexTipPos s); [destruct (Qltb WIPE_DELAY_MS _)|];
        destruct (isSymmetry s); cbn [List.length]; lia.
    + intros H. rewrite H. reflexivity.
Qed.

(** ** The animation loop stays alive *)

Lemma live_step s e :
  ready s -> requestRef s = true -> requestRef (step Math_sqrt s e) = true.
Proof.
  intros R Hr. destruct e as [r|r|code|code| |w h|env]; cbn [step].
  1,2,5: unfold commit, animateEffect, requestAnimationFrame;
    match goal with |- context [animateChanged ?o ?n] =>
      destruct (animateChanged o n) end; st_cbn; [reflexivity|].
  - unfold handsOnResults. destruct r as [[|lm rest]|]; exact Hr.
  - unfold faceOnResults. destruct r as [[|lm rest]|]; exact Hr.
  - exact Hr.
  - unfold handleKeyDown. destruct (String.eqb _ _); exact Hr.
  - unfold handleKeyUp. destruct (String.eqb _ _); exact Hr.
  - chain_resize. exact Hr.
  - rewrite Hr. apply animate_requests. exact R.
Qed.

Lemma live_run events : forall s,
  ready s -> requestRef s = true ->
  ready (run Math_sqrt s events) /\ requestRef (run Math_sqrt s events) = true.
Proof.
  induction events as [|e rest IH]; intros s R Hr; [auto|].
  cbn [run fold_left]. apply IH; [apply ready_step, R | apply live_step; assumption].
Qed.

Lemma mount_requests random video symmetry canvas fog2d w h :
  requestRef (mount random video symmetry canvas fog2d w h) = true.
Proof. reflexivity. Qed.

(** X12. Mounted on a canvas with a 2D context, the component can always
    draw and always has a frame pending: no sequence of tracker results,
    key events, symmetry toggles, window resizes and display refreshes
    stops the animation loop. *)
Theorem loop_stays_alive random symmetry c ctx w h events :
  Canvas.context2d c = Some ctx ->
  let s := run Math_sqrt (mount random true symmetry (Some c) true w h) events in
  ready s /\ requestRef s = true.
Proof.
  intros Hctx. apply live_run; [eapply ready_mount, Hctx | apply mount_requests].
Qed.

(** ** Re-running the animation effect *)

(** The events that make React render the component again. *)
Lemma rerender_new s e :
  match e with
  | HandsResults _ | FaceResults _ | ToggleSymmetry => True
  | _ => False
  end ->
  exists new,
    step Math_sqrt s e = commit s new
    /\ canvasRef new = canvasRef s /\ fogCanvasRef new = fogCanvasRef s
    /\ requestRef new = requestRef s
    /\ innerWidth new = innerWidth s /\ innerHeight new = innerHeight s.
Proof.
  destruct e as [r|r|code|code| |w h|env]; intros H; try contradiction; cbn [step].
  - eexists; split; [reflexivity|]. unfold handsOnResults.
    destruct r as [[|lm rest]|]; st_cbn; auto.
  - eexists; split; [reflexivity|]. unfold faceOnResults.
    destruct r as [[|lm rest]|]; st_cbn; auto.
  - eexists; split; [reflexivity|]. st_cbn; auto.
Qed.

Lemma animateChanged_commit old new :
  animateChanged old (commit old new) = animateChanged old new.
Proof.
  destruct (commit_shape old new) as (cv & fog & rq & E). rewrite E.
  reflexivity.
Qed.

Lemma commit_rerun old new c fCtx :
  canvasRef new = Some c ->
  Canvas.context2d (fogCanvasRef new) = Some fCtx ->
  animateChanged old new = true ->
  commit old new
  = set_requestRef true
      (set_fogCanvasRef
         (Canvas.mk (innerWidth new) (innerHeight new)
            (Some (Ctx.mk 1 SourceOver (Solid (frost 0.15))
                     [Fill SourceOver 1 (Solid (frost 0.15))
                        (Rect 0 0 (innerWidth new) (innerHeight new))])))
         (set_canvasRef
            (Some (Canvas.mk (innerWidth new) (innerHeight new)
                     (Canvas.reset (Canvas.context2d c)))) new)).
Proof.
  intros Hc Hf Hch. unfold commit. rewrite Hch.
  unfold animateEffect, animateCleanup, requestAnimationFrame, cancelAnimationFrame.
  destruct (requestRef new); erewrite resize_draws by side;
    apply state_ext; st_cbn; reflexivity.
Qed.

(** The memo test on [animate], in terms of the three values. *)
Lemma animateChanged_spec old new :
  animateChanged old new = true
  <-> (~ breathIntensity new == breathIntensity old
       \/ isSymmetry new <> isSymmetry old
       \/ peaceDetected new <> peaceDetected old).
Proof.
  unfold animateChanged. rewrite !orb_true_iff, !negb_true_iff.
  rewrite Qeq_bool_false.
  assert (Hb : forall a b : bool, Bool.eqb a b = false <-> b <> a)
    by (intros [|] [|]; cbn; split; congruence).
  rewrite !Hb. split.
  - intros [[H|H]|H]; [left; intros E; apply H; symmetry; exact E | auto | auto].
  - intros [H|[H|H]]; [left; left; intros E; apply H; symmetry; exact E | auto | auto].
Qed.

(** X4. A tracker result or a symmetry toggle after which the breath
    intensity has another value, or the symmetry flag or the peace flag has
    flipped, re-runs the animation effect, and with it [resize]: both
    canvases take the window size, the visible canvas is blank, the fog
    surface holds the seed layer alone, so all fog breathed and wiped so far
    is gone, and a frame is pending.  A result that leaves all three as
    they were (whatever it does to the hand flag, the fingertip or the mouth
    point) leaves both surfaces and the pending frame as they are.  A
    symmetry toggle always flips the flag, so it always re-runs the
    effect. *)
Theorem effect_rerun_reseeds s e c ctx fCtx :
  canvasRef s = Some c -> Canvas.context2d c = Some ctx ->
  Canvas.context2d (fogCanvasRef s) = Some fCtx ->
  match e with
  | HandsResults _ | FaceResults _ | ToggleSymmetry => True
  | _ => False
  end ->
  let s' := step Math_sqrt s e in
  (~ breathIntensity s' == breathIntensity s
   \/ isSymmetry s' <> isSymmetry s
   \/ peaceDetected s' <> peaceDetected s ->
     fogCalls s'
     = [Fill SourceOver 1 (Solid (frost 0.15))
          (Rect 0 0 (innerWidth s) (innerHeight s))]
     /\ mainCtx s' = Some Ctx.fresh
     /\ viewport s' = (innerWidth s, innerHeight s)
     /\ requestRef s' = true)
  /\ (breathIntensity s' == breathIntensity s ->
      isSymmetry s' = isSymmetry s ->
      peaceDetected s' = peaceDetected s ->
        fogCanvasRef s' = fogCanvasRef s /\ canvasRef s' = canvasRef s
        /\ requestRef s' = requestRef s)
  /\ (e = ToggleSymmetry -> isSymmetry s' <> isSymmetry s).
Proof.
  intros Hc Hctx Hf He s'. subst s'.
  split; [|split].
  3: { intros ->. cbn [step]. chain_commit. st_cbn.
       destruct (isSymmetry s); discriminate. }
  all: destruct (rerender_new s e He) as (new & E & Hnc & Hnf & Hnr & Hiw & Hih).
  - intros Hch. apply animateChanged_spec in Hch.
    rewrite E, animateChanged_commit in Hch. rewrite E.
    rewrite (commit_rerun s new c fCtx) by (rewrite ?Hnc, ?Hnf; assumption).
    unfold fogCalls, mainCtx, viewport. st_cbn. rewrite Hctx, Hiw, Hih.
    repeat split.
  - intros Hb Hs Hp.
    assert (Hch : animateChanged s (step Math_sqrt s e) = false).
    { destruct (animateChanged s (step Math_sqrt s e)) eqn:Hch; [|reflexivity].
      apply animateChanged_spec in Hch. destruct Hch as [H|[H|H]]; contradiction. }
    rewrite E, animateChanged_commit in Hch. rewrite E.
    unfold commit. rewrite Hch. auto.
Qed.

(** ** What the tracker callbacks keep true *)

(** Case analysis on the event of a transition out of [s]. *)
Ltac by_event s e :=
  let r := fresh "r" in let code := fresh "code" in
  let w := fresh "w" in let h := fresh "h" in let env := fresh "env" in
  let lm := fresh "lm" in let rest := fresh "rest" in
  destruct e as [r|r|code|code| |w h|env]; cbn [step];
  [ chain_commit; unfold handsOnResults; destruct r as [[|lm rest]|]
  | chain_commit; unfold faceOnResults; destruct r as [[|lm rest]|]
  | unfold handleKeyDown; destruct (String.eqb _ _)
  | unfold handleKeyUp; destruct (String.eqb _ _)
  | chain_commit
  | chain_resize
  | destruct (requestRef s); [chain_animate env (set_requestRef false s)|] ];
  st_cbn.

Lemma hand_step s e :
  (handDetected s = true <-> indexTipPos s <> None)
  /\ (peaceDetected s = true -> handDetected s = true) ->
  (handDetected (step Math_sqrt s e) = true <-> indexTipPos (step Math_sqrt s e) <> None)
  /\ (peaceDetected (step Math_sqrt s e) = true -> handDetected (step Math_sqrt s e) = true).
Proof.
  intros Hinv. by_event s e; try exact Hinv.
  all: split; [split|]; congruence.
Qed.

Lemma hand_run events : forall s,
  (handDetected s = true <-> indexTipPos s <> None)
  /\ (peaceDetected s = true -> handDetected s = true) ->
  (handDetected (run Math_sqrt s events) = true
   <-> indexTipPos (run Math_sqrt s events) <> None)
  /\ (peaceDetected (run Math_sqrt s events) = true
      -> handDetected (run Math_sqrt s events) = true).
Proof.
  induction events as [|e rest IH]; intros s Hinv; [exact Hinv|].
  cbn [run fold_left]. apply IH, hand_step, Hinv.
Qed.

Lemma mount_tracking random video symmetry canvas fog2d w h :
  let s := mount random video symmetry canvas fog2d w h in
  handDetected s = false /\ peaceDetected s = false /\ indexTipPos s = None
  /\ breathIntensity s = 0 /\ mouthPos s = Point.mk 0.5 0.5
  /\ smoothedIndexTip s = None /\ isBreathingManual s = false
  /\ innerWidth s = w /\ innerHeight s = h.
Proof.
  unfold mount, animateEffect, requestAnimationFrame.
  chain_resize. st_cbn. repeat split; reflexivity.
Qed.

(** X5. From mount on, whatever happens, the hand flag the overlay shows
    agrees with the fingertip [animate] reads: the flag is set exactly when
    a fingertip is stored.  The peace flag is only ever set together with
    the hand flag, and while no hand is flagged the presence timer is
    unset. *)
Theorem hand_state_consistent random video symmetry canvas fog2d w h events :
  let s := run Math_sqrt (mount random video symmetry canvas fog2d w h) events in
  (handDetected s = true <-> indexTipPos s <> None)
  /\ (peaceDetected s = true -> handDetected s = true)
  /\ (handDetected s = false -> handPresenceTime s = 0).
Proof.
  intros s.
  destruct (mount_tracking random video symmetry canvas fog2d w h)
    as (Hh & Hp & Ht & _).
  assert (Hinv : (handDetected s = true <-> indexTipPos s <> None)
                 /\ (peaceDetected s = true -> handDetected s = true)).
  { apply hand_run. rewrite Hh, Hp, Ht. split; [split|]; congruence. }
  destruct Hinv as [Hiff Hpeace]. split; [exact Hiff|]. split; [exact Hpeace|].
  intros Hno. apply absent_unset_run.
  - intros _. apply mount_unset.
  - fold s. destruct (indexTipPos s) eqn:E; [|reflexivity].
    assert (handDetected s = true) by (apply Hiff; discriminate). congruence.
Qed.

(** X6. A hands result with at least one hand sets the peace flag exactly
    when, on the first hand, the index and middle tips (8, 12) lie strictly
    above their joints (6, 10) and the ring and pinky tips (16, 20) strictly
    below theirs (14, 18), in image-space y where smaller is higher;
    equality in any of the four comparisons gives no peace sign, and the
    other hands of the result are not looked at.  The hand flag is set and
    the fingertip is landmark 8 of that hand. *)
Theorem peace_sign_detection s lm rest :
  let s' := step Math_sqrt s (HandsResults (Some (lm :: rest))) in
  (peaceDetected s' = true <-> peaceSign lm)
  /\ handDetected s' = true
  /\ indexTipPos s' = Some (lm 8%nat).
Proof.
  cbn [step]. chain_commit. unfold handsOnResults. st_cbn.
  split; [|split; [reflexivity | destruct (lm 8%nat); reflexivity]].
  unfold peaceSign. rewrite !andb_true_iff, !Qltb_true. tauto.
Qed.

(** ** The space key *)

Lemma manual_step s e :
  isBreathingManual (step Math_sqrt s e)
  = match e with
    | KeyDown code => if String.eqb code "Space" then true else isBreathingManual s
    | KeyUp code => if String.eqb code "Space" then false else isBreathingManual s
    | _ => isBreathingManual s
    end.
Proof. by_event s e; reflexivity. Qed.

(** X7. The manual-breath flag is a function of the key events alone: it is
    set by a keydown of Space, cleared by a keyup of Space, and no other key
    and no tracker result, symmetry toggle, resize or frame touches it. *)
Theorem manual_flag_follows_space events : forall s,
  isBreathingManual (run Math_sqrt s events) = spaceHeld (isBreathingManual s) events.
Proof.
  induction events as [|e rest IH]; intros s; [reflexivity|].
  cbn [run fold_left spaceHeld]. fold (run Math_sqrt (step Math_sqrt s e) rest).
  rewrite IH, manual_step. unfold spaceHeld.
  destruct e; reflexivity.
Qed.

(** ** Breath intensity *)

Lemma breath_step s e :
  0 <= breathIntensity s <= 1 -> 0 <= breathIntensity (step Math_sqrt s e) <= 1.
Proof.
  intros Hinv. by_event s e; try exact Hinv; try lra.
  apply intensityOf_range.
Qed.

Lemma breath_run events : forall s,
  0 <= breathIntensity s <= 1 -> 0 <= breathIntensity (run Math_sqrt s events) <= 1.
Proof.
  induction events as [|e rest IH]; intros s Hinv; [exact Hinv|].
  cbn [run fold_left]. apply IH, breath_step, Hinv.
Qed.

Lemma effectiveIntensity_range s :
  0 <= breathIntensity s <= 1 -> 0 <= effectiveIntensity s <= 1.
Proof.
  intros H. unfold effectiveIntensity.
  destruct (isBreathingManual s); qminmax.
Qed.

(** X8. From mount on the breath intensity stays within [0, 1], so the
    percentage of the status line is a whole number from 0 to 100, and every
    breath deposit a frame paints has a radius above 115 and at most 250 and
    a centre alpha above 0.004 and at most 0.04. *)
Theorem breath_stays_in_range random video symmetry canvas fog2d w h events :
  let s := run Math_sqrt (mount random video symmetry canvas fog2d w h) events in
  0 <= breathIntensity s <= 1
  /\ (0 <= breathPercent s <= 100)%Z
  /\ forall env,
       Forall (fun d => exists ga cx cy radius a,
                 d = depositCall ga cx cy radius a
                 /\ 115 < radius <= 250 /\ 0.004 < a <= 0.04)
              (deposits env s).
Proof.
  intros s.
  assert (Hb : 0 <= breathIntensity s <= 1).
  { apply breath_run.
    destruct (mount_tracking random video symmetry canvas fog2d w h)
      as (_ & _ & _ & Hb & _).
    rewrite Hb. lra. }
  split; [exact Hb|]. split.
  - unfold breathPercent. split.
    + apply (Z.le_trans _ (Qfloor 0.5)); [discriminate | apply Qfloor_resp_le; lra].
    + apply (Z.le_trans _ (Qfloor 100.5)); [apply Qfloor_resp_le; lra | discriminate].
  - intros env.
    destruct (animate_cases env s) as [E | (c & ctx & fCtx & Hv & Hc & Hctx & Hf)].
    + unfold deposits. rewrite E, painted_same. constructor.
    + rewrite (deposits_draws env s c ctx fCtx Hv Hc Hctx Hf).
      unfold frameDeposit.
      pose proof (effectiveIntensity_range s Hb) as He.
      destruct (Qltb 0.1 _) eqn:Eg; [|constructor].
      apply Qltb_true in Eg.
      constructor; [|constructor].
      do 5 eexists. split; [reflexivity|]. lra.
Qed.

(** ** Where the fog is touched *)

Lemma mirrored_inBox p w h :
  0 <= w -> 0 <= h -> inBox 1 1 p -> inBox w h (mirrored p w h).
Proof.
  unfold inBox, mirrored. cbn [Point.x Point.y]. intros Hw Hh [[? ?] [? ?]]. nra.
Qed.

Lemma smooth_inBox w h t sm :
  inBox w h t -> (forall p, sm = Some p -> inBox w h p) -> inBox w h (smooth t sm).
Proof.
  unfold inBox. intros Ht Hp. destruct sm as [p|]; cbn [smooth Point.x Point.y].
  - specialize (Hp p eq_refl). unfold SMOOTHING_FACTOR. lra.
  - exact Ht.
Qed.




Lemma viewport_resize s :
  viewport (resize s) = viewport s
  \/ viewport (resize s) = (innerWidth s, innerHeight s).
Proof.
  unfold resize. destruct (canvasRef s) as [c|]; [right | left; reflexivity].
  unfold onFog. st_cbn. destruct (Canvas.context2d _); reflexivity.
Qed.

Lemma viewport_commit old new :
  viewport (commit old new) = viewport new
  \/ viewport (commit old new) = (innerWidth new, innerHeight new).
Proof.
  unfold commit, animateEffect, animateCleanup, requestAnimationFrame,
    cancelAnimationFrame.
  destruct (animateChanged old new); [|left; reflexivity].
  destruct (requestRef new);
    match goal with |- context [resize ?x] =>
      destruct (viewport_resize x) as [E|E] end; [left|right|left|right]; exact E.
Qed.

(** Without a window resize the viewport is the one of mount. *)
Lemma fixed_step s e w h :
  isResize e = false ->
  viewport s = (w, h) /\ innerWidth s = w /\ innerHeight s = h ->
  viewport (step Math_sqrt s e) = (w, h)
  /\ innerWidth (step Math_sqrt s e) = w /\ innerHeight (step Math_sqrt s e) = h.
Proof.
  intros Hno (Hvp & Hiw & Hih). split.
  - assert (Hcommit : forall new,
              viewport new = (w, h) -> innerWidth new = w -> innerHeight new = h ->
              viewport (commit s new) = (w, h)).
    { intros new H1 H2 H3. destruct (viewport_commit s new) as [E|E]; rewrite E;
        congruence. }
    destruct e as [r|r|code|code| |w' h'|env]; cbn [step]; try discriminate Hno.
    + apply Hcommit; unfold handsOnResults; destruct r as [[|lm rest]|]; assumption.
    + apply Hcommit; unfold faceOnResults; destruct r as [[|lm rest]|]; assumption.
    + unfold handleKeyDown. destruct (String.eqb _ _); exact Hvp.
    + unfold handleKeyUp. destruct (String.eqb _ _); exact Hvp.
    + apply Hcommit; assumption.
    + destruct (requestRef s); [|exact Hvp]. rewrite viewport_animate. exact Hvp.
  - by_event s e; try discriminate Hno; auto.
Qed.

Lemma tip_step s e w h :
  0 <= w -> 0 <= h -> normalized e ->
  viewport s = (w, h) ->
  (forall tip, indexTipPos s = Some tip -> inBox 1 1 tip)
  /\ (forall p, smoothedIndexTip s = Some p -> inBox w h p) ->
  (forall tip, indexTipPos (step Math_sqrt s e) = Some tip -> inBox 1 1 tip)
  /\ (forall p, smoothedIndexTip (step Math_sqrt s e) = Some p -> inBox w h p).
Proof.
  intros Hw Hh Hn Hvp [Htip Hsm]. by_event s e; try (split; assumption).
  - split; [discriminate | exact Hsm].
  - split; [|exact Hsm]. intros tip [= <-]. exact Hn.
  - split; [discriminate | exact Hsm].
  - split; [exact Htip|]. unfold viewport in Hvp. rewrite Hc in Hvp.
    injection Hvp as -> ->.
    unfold frameSmoothed. st_cbn. destruct (indexTipPos s) as [tip|] eqn:Et;
      [|discriminate].
    destruct (Qltb WIPE_DELAY_MS _); [|exact Hsm].
    intros p [= <-]. apply smooth_inBox; [|exact Hsm].
    apply mirrored_inBox; auto.
Qed.

Lemma tip_run events w h : forall s,
  0 <= w -> 0 <= h -> Forall normalized events ->
  forallb (fun e => negb (isResize e)) events = true ->
  viewport s = (w, h) /\ innerWidth s = w /\ innerHeight s = h ->
  (forall tip, indexTipPos s = Some tip -> inBox 1 1 tip)
  /\ (forall p, smoothedIndexTip s = Some p -> inBox w h p) ->
  viewport (run Math_sqrt s events) = (w, h)
  /\ (forall tip, indexTipPos (run Math_sqrt s events) = Some tip -> inBox 1 1 tip)
  /\ (forall p, smoothedIndexTip (run Math_sqrt s events) = Some p -> inBox w h p).
Proof.
  induction events as [|e rest IH]; intros s Hw Hh Hn Hno Hfix Hinv.
  - split; [apply Hfix | exact Hinv].
  - inversion Hn; subst. cbn [forallb] in Hno. apply andb_prop in Hno as [He Hrest].
    apply negb_true_iff in He. cbn [run fold_left].
    apply IH; auto.
    + apply fixed_step; assumption.
    + apply tip_step; auto. apply Hfix.
Qed.

Lemma mount_viewport random video symmetry c fog2d w h :
  viewport (mount random video symmetry (Some c) fog2d w h) = (w, h).
Proof.
  unfold mount, animateEffect, requestAnimationFrame, resize, initSnow,
    initialState, onFog, Canvas.create, viewport.
  st_cbn. destruct fog2d; reflexivity.
Qed.

(** X9. As long as the window is not resized and the tracker reports the
    index tip within the unit square, the smoothed fingertip stays inside
    the canvas, and every erase disc of a frame, the mirrored one of the
    symmetry mode included, is centred inside the canvas. *)
Theorem erase_lands_in_viewport random video symmetry c fog2d w h events :
  0 <= w -> 0 <= h ->
  Forall normalized events ->
  forallb (fun e => negb (isResize e)) events = true ->
  let s := run Math_sqrt (mount random video symmetry (Some c) fog2d w h) events in
  viewport s = (w, h)
  /\ (forall p, smoothedIndexTip s = Some p -> inBox w h p)
  /\ (forall env, Forall (landsIn w h) (erases env s)).
Proof.
  intros Hw Hh Hn Hno s.
  destruct (mount_tracking random video symmetry (Some c) fog2d w h)
    as (_ & _ & Ht & _ & _ & Hs & _ & Hiw & Hih).
  destruct (tip_run events w h (mount random video symmetry (Some c) fog2d w h)
              Hw Hh Hn Hno) as (Hvp & Htip & Hsm).
  { split; [apply mount_viewport | split; assumption]. }
  { rewrite Ht, Hs. split; discriminate. }
  fold s in Hvp, Htip, Hsm. split; [exact Hvp|]. split; [exact Hsm|].
  intros env.
  destruct (animate_cases env s) as [E | (c0 & ctx & fCtx & Hv & Hc & Hctx & Hf)].
  - rewrite (erases_skipped env s E). constructor.
  - rewrite (erases_draws env s c0 ctx fCtx Hv Hc Hctx Hf).
    unfold viewport in Hvp. rewrite Hc in Hvp. injection Hvp as -> ->.
    unfold frameWipes. destruct (indexTipPos s) as [tip|] eqn:Et; [|constructor].
    destruct (Qltb WIPE_DELAY_MS _); [|constructor].
    assert (Hb : inBox w h (smooth (mirrored tip w h) (smoothedIndexTip s))).
    { apply smooth_inBox; [|exact Hsm]. apply mirrored_inBox; auto. }
    constructor.
    + eexists. split; [reflexivity|]. exact Hb.
    + destruct (isSymmetry s); constructor; [|constructor].
      eexists. split; [reflexivity|].
      unfold inBox in *. cbn [Point.x Point.y]. lra.
Qed.

(** ** Window resize *)

(** X11. A window resize blanks the visible canvas until the next frame
    and, where there is a canvas, gives it the window's size, but it neither
    requests nor cancels a frame, and it keeps everything the trackers and
    the frames have stored: breath, mouth, hand and peace flags, the
    fingertip, the smoothed fingertip (still in pixels of the old size), the
    presence timer, the manual flag and the particles. *)
Theorem window_resize_keeps_tracking s w h :
  let s' := step Math_sqrt s (WindowResize w h) in
  mainCalls s' = []
  /\ (canvasRef s <> None -> viewport s' = (w, h))
  /\ requestRef s' = requestRef s
  /\ breathIntensity s' = breathIntensity s /\ mouthPos s' = mouthPos s
  /\ handDetected s' = handDetected s /\ peaceDetected s' = peaceDetected s
  /\ indexTipPos s' = indexTipPos s /\ smoothedIndexTip s' = smoothedIndexTip s
  /\ handPresenceTime s' = handPresenceTime s
  /\ isBreathingManual s' = isBreathingManual s
  /\ snowflakes s' = snowflakes s.
Proof.
  cbn [step]. unfold resize, onFog, mainCalls, mainCtx, viewport. st_cbn.
  destruct (canvasRef s) as [c|] eqn:Hc; st_cbn.
  - destruct (Canvas.context2d (fogCanvasRef s)); st_cbn;
      destruct (Canvas.context2d c); st_cbn; repeat split; reflexivity.
  - rewrite Hc. repeat split; try reflexivity. congruence.
Qed.

(** ** Particles *)

Lemma body_step s e :
  map body (snowflakes (step Math_sqrt s e)) = map body (snowflakes s).
Proof. by_event s e; try reflexivity. apply snowLoop_body. Qed.

Lemma body_run events : forall s,
  map body (snowflakes (run Math_sqrt s events)) = map body (snowflakes s).
Proof.
  induction events as [|e rest IH]; intros s; [reflexivity|].
  cbn [run fold_left]. fold (run Math_sqrt (step Math_sqrt s e) rest).
  rewrite IH. apply body_step.
Qed.

Lemma newSnowflake_drift random i :
  (forall k, 0 <= random k < 1) ->
  0.5 <= Snowflake.speed (newSnowflake random i) < 2
  /\ -0.25 <= Snowflake.wind (newSnowflake random i) < 0.25
  /\ 0.2 <= Snowflake.opacity (newSnowflake random i) <= 0.7.
Proof.
  intros Hr. unfold newSnowflake. cbn [Snowflake.speed Snowflake.wind Snowflake.opacity].
  pose proof (Hr (6 * i + 3)%nat). pose proof (Hr (6 * i + 5)%nat).
  pose proof (Hr (6 * i + 4)%nat).
  repeat split; lra.
Qed.

Lemma body_forall (P : Q * Q * Q * Q -> Prop) l l' :
  map body l = map body l' ->
  Forall (fun f => P (body f)) l' -> Forall (fun f => P (body f)) l.
Proof.
  intros E H. apply Forall_map. rewrite E. apply Forall_map. exact H.
Qed.

(** X14. A particle keeps its size, speed, opacity and wind for life: no
    event changes them, and a respawn at the top only draws a new x.  Each
    particle falls with a speed of at least 0.5 and below 2 pixels a frame
    and drifts sideways by less than 0.25 pixels a frame. *)
Theorem particle_identity random video symmetry canvas fog2d w h events :
  (forall k, 0 <= random k < 1) ->
  let s0 := mount random video symmetry canvas fog2d w h in
  let s := run Math_sqrt s0 events in
  map body (snowflakes s) = map body (snowflakes s0)
  /\ Forall (fun f => 0.5 <= Snowflake.speed f < 2
                      /\ -0.25 <= Snowflake.wind f < 0.25) (snowflakes s).
Proof.
  intros Hr s0 s. split; [apply body_run|].
  apply (body_forall
           (fun b => 0.5 <= snd (fst (fst b)) < 2 /\ -0.25 <= snd b < 0.25)
           _ (snowflakes s0) (body_run events s0)).
  unfold s0. rewrite mount_snow. apply initSnowLoop_forall; [|constructor].
  intros i. cbn [body fst snd].
  destruct (newSnowflake_drift random i Hr) as (H1 & H2 & _). split; assumption.
Qed.

(** ** The global alpha of the visible canvas *)

Lemma animate_after env s c ctx fCtx :
  videoSource s = true ->
  canvasRef s = Some c -> Canvas.context2d c = Some ctx ->
  Canvas.context2d (fogCanvasRef s) = Some fCtx ->
  exists fCtx',
    videoSource (animate env s) = true
    /\ canvasRef (animate env s)
       = Some (Canvas.mk (Canvas.width c) (Canvas.height c)
                 (Some (frameCtx env s (Canvas.width c) (Canvas.height c) ctx)))
    /\ Canvas.context2d (fogCanvasRef (animate env s)) = Some fCtx'
    /\ requestRef (animate env s) = true
    /\ map body (snowflakes (animate env s)) = map body (snowflakes s).
Proof.
  intros Hv Hc Hctx Hf.
  pose proof (animate_canvas env s c ctx fCtx Hv Hc Hctx Hf) as Hm.
  destruct (animate_draws env s c ctx fCtx Hv Hc Hctx Hf) as (ctx' & fCtx' & E & _).
  rewrite E in Hm |- *. unfold mainCtx in Hm. st_cbn.
  injection Hm as ->. exists fCtx'. repeat split. apply snowLoop_body.
Qed.

Lemma Forall_last {A} (P : A -> Prop) (l : list A) :
  forall d, P d -> Forall P l -> P (last l d).
Proof.
  induction l as [|a l IH]; intros d Hd Hl; [exact Hd|].
  inversion Hl; subst. rewrite last_cons_default. apply IH; assumption.
Qed.

Lemma opacity_body l : map Snowflake.opacity l = map (fun b => snd (fst b)) (map body l).
Proof. rewrite map_map. reflexivity. Qed.

(** X2. The snow loop sets the global alpha of the visible canvas for each
    particle and never restores it, so a frame leaves the alpha at the
    opacity of the last particle, and the next frame draws the video (and
    the shine) under that alpha: from mount on, the video of a frame that
    directly follows another frame is drawn at the last particle's opacity,
    between 0.2 and 0.7, not at full alpha. *)
Theorem video_drawn_dimmed random symmetry c ctx w h events env env' :
  (forall k, 0 <= random k < 1) ->
  Canvas.context2d c = Some ctx ->
  let s := run Math_sqrt (mount random true symmetry (Some c) true w h) events in
  let s1 := step Math_sqrt s (AnimationFrame env) in
  let a := last (map Snowflake.opacity (snowflakes s)) 1 in
  0.2 <= a <= 0.7
  /\ (exists ctx1, mainCtx s1 = Some ctx1 /\ Ctx.globalAlpha ctx1 = a)
  /\ hd_error (drawn s1 (step Math_sqrt s1 (AnimationFrame env')))
     = Some (DrawVideo a (fst (viewport s)) (snd (viewport s))).
Proof.
  intros Hr Hctx s s1 a.
  destruct (live_run events (mount random true symmetry (Some c) true w h))
    as [R Hq]; [eapply ready_mount, Hctx | apply mount_requests |]. fold s in R, Hq.
  (* the particles *)
  assert (Hop : Forall (fun f => 0.2 <= Snowflake.opacity f <= 0.7) (snowflakes s)).
  { apply (body_forall (fun b => 0.2 <= snd (fst b) <= 0.7) _ _
             (body_run events _)).
    rewrite mount_snow. apply initSnowLoop_forall; [|constructor].
    intros i. cbn [body fst snd].
    destruct (newSnowflake_drift random i Hr) as (_ & _ & H). exact H. }
  assert (Hlen : List.length (snowflakes s) = 60%nat).
  { pose proof (f_equal (@List.length _)
                  (body_run events (mount random true symmetry (Some c) true w h)))
      as Hl.
    rewrite !length_map in Hl. fold s in Hl. rewrite Hl, mount_snow.
    rewrite initSnowLoop_length. reflexivity. }
  assert (Hlast : forall d, last (map Snowflake.opacity (snowflakes s)) d = a
                            /\ 0.2 <= a <= 0.7).
  { intros d. unfold a. destruct (snowflakes s) as [|f fl]; [discriminate Hlen|].
    cbn [map]. rewrite !last_cons_default. split; [reflexivity|].
    inversion Hop; subst.
    apply (Forall_last (fun o => 0.2 <= o <= 0.7)); [assumption|].
    apply Forall_map. assumption. }
  (* the first frame *)
  destruct (ready_parts s R) as (c0 & ctx0 & fCtx0 & Hv & Hc & Hctx0 & Hf & Hvp).
  unfold s1. cbn [step]. rewrite Hq.
  destruct (animate_after env (set_requestRef false s) c0 ctx0 fCtx0 Hv Hc Hctx0 Hf)
    as (fCtx1 & Hv1 & Hc1 & Hf1 & Hq1 & Hb1).
  set (f1 := animate env (set_requestRef false s)) in *.
  rewrite Hq1.
  destruct (frameCtx_alpha env (set_requestRef false s) (Canvas.width c0)
              (Canvas.height c0) ctx0) as [Ha1 _].
  st_cbn. destruct (Hlast (Ctx.globalAlpha ctx0)) as [Hl Hrange].
  rewrite Hl in Ha1.
  split; [exact Hrange|]. split.
  - eexists. unfold mainCtx. rewrite Hc1. st_cbn. split; [reflexivity | exact Ha1].
  - unfold drawn, mainCalls.
    erewrite (animate_canvas env' (set_requestRef false f1)) by side.
    unfold mainCtx at 1. rewrite Hc1. st_cbn.
    rewrite (frameCtx_calls env'), skipn_length_app. cbn [app hd_error].
    rewrite Ha1, Hvp. reflexivity.
Qed.

(** ** Wipe gate under continuous presence *)

(** Once set, the presence timer is kept by every event but a hands result
    without a hand, and so is the presence of a fingertip. *)
Lemma presence_step s e T :
  handStays e = true ->
  indexTipPos s <> None -> handPresenceTime s = T -> ~ T == 0 ->
  indexTipPos (step Math_sqrt s e) <> None
  /\ handPresenceTime (step Math_sqrt s e) = T.
Proof.
  intros Hs Htip Ht Hset. by_event s e; try discriminate Hs;
    try (split; assumption).
  - split; [discriminate | exact Ht].
  - split; [exact Htip|]. unfold framePresence, presenceStart. st_cbn.
    destruct (indexTipPos s); [|exact Ht].
    rewrite Ht. apply Qeq_bool_false in Hset. rewrite Hset. reflexivity.
Qed.

Lemma presence_run events : forall s T,
  forallb handStays events = true ->
  indexTipPos s <> None -> handPresenceTime s = T -> ~ T == 0 ->
  indexTipPos (run Math_sqrt s events) <> None
  /\ handPresenceTime (run Math_sqrt s events) = T.
Proof.
  induction events as [|e rest IH]; intros s T Hs Htip Ht Hset; [auto|].
  cbn [forallb] in Hs. apply andb_prop in Hs as [He Hrest].
  destruct (presence_step s e T He Htip Ht Hset) as [Htip' Ht'].
  cbn [run fold_left]. apply IH; assumption.
Qed.

(** C1 (as the code has it). A frame that draws erases exactly when a
    fingertip is there and strictly more than 1000 ms separate the clock
    reading from the presence timer, which the first frame that sees the
    fingertip sets to its own clock reading and later frames keep; a hand
    result without a hand clears the fingertip and resets the timer to
    unset (0) at once, and the timer is unset whenever no fingertip is
    there; so along any run that starts with the timer unset and whose
    frames read the clock at [T] or later, every erase happens at a clock
    reading strictly after [T + 1000].  Under continuous presence, that is
    along any run of events none of which is a hands result without a hand,
    a timer set to [T] stays at [T] and the fingertip stays present, so
    that every display refresh afterwards erases exactly when its clock
    reads strictly more than [T + 1000]. *)
Theorem wipe_gating :
  (forall env s,
      ready s ->
      (erases env s <> []
       <-> indexTipPos s <> None
           /\ 1000 < nowAtElapsed env - presenceStart env s))
  /\ (forall env s,
         ready s -> indexTipPos s <> None ->
         handPresenceTime (animate env s)
         = if Qeq_bool (handPresenceTime s) 0 then nowAtSet env
           else handPresenceTime s)
  /\ (forall r s,
         r = None \/ r = Some [] ->
         indexTipPos (step Math_sqrt s (HandsResults r)) = None
         /\ handPresenceTime (step Math_sqrt s (HandsResults r)) = 0)
  /\ (forall random video symmetry canvas fog2d w h events,
         let s := run Math_sqrt
                    (mount random video symmetry canvas fog2d w h) events in
         indexTipPos s = None -> handPresenceTime s = 0)
  /\ (forall s events T,
         handPresenceTime s == 0 ->
         (forall env, In (AnimationFrame env) events -> T <= nowAtSet env) ->
         Forall (fun t => T + 1000 < t) (eraseTimes Math_sqrt s events))
  /\ (forall s events T env,
         ready s -> requestRef s = true ->
         indexTipPos s <> None -> handPresenceTime s = T -> ~ T == 0 ->
         forallb handStays events = true ->
         let s' := run Math_sqrt s events in
         indexTipPos s' <> None
         /\ handPresenceTime s' = T
         /\ (filter isErase (painted s' (step Math_sqrt s' (AnimationFrame env))) <> []
             <-> 1000 < nowAtElapsed env - T)).
Proof.
  split; [|split; [|split; [|split; [|split]]]].
  - intros env s R. apply (erases_gate env s R).
  - intros env s R Htip. apply (animate_presence env s R Htip).
  - intros r s [-> | ->]; cbn [step]; chain_commit;
      unfold handsOnResults; st_cbn; auto.
  - intros random video symmetry canvas fog2d w h events s.
    apply absent_unset_run. intros _. apply mount_unset.
  - intros s events T H0 Hnow.
    apply (eraseTimes_bound events s T); auto.
  - intros s events T env R Hreq Htip Ht Hset Hstay s'.
    destruct (presence_run events s T Hstay Htip Ht Hset) as [Htip' Ht'].
    destruct (live_run events s R Hreq) as [R' Hreq'].
    fold s' in Htip', Ht', R', Hreq'.
    split; [exact Htip'|]. split; [exact Ht'|].
    rewrite painted_frame, Hreq'.
    assert (R0 : ready (set_requestRef false s')) by exact R'.
    rewrite (erases_gate env (set_requestRef false s') R0).
    unfold presenceStart. st_cbn. rewrite Ht'.
    apply Qeq_bool_false in Hset. rewrite Hset.
    unfold WIPE_DELAY_MS. tauto.
Qed.

(** ** Loop *)


(** ** Smoothing *)



(** ** Particles and the viewport *)

Lemma snowLoop_advanced r w h fl : forall k ctx,
  Forall2 (advanced r w h) fl (fst (snowLoop r w h k fl ctx)).
Proof.
  induction fl as [|f rest IH]; intros k ctx; [constructor|].
  rewrite snowLoop_cons. constructor; [|apply IH].
  destruct (snowStep_flake r w h k f ctx) as (Es & Ep & Eo & Ew & Hwrap & Hmove).
  unfold advanced, body. rewrite Es, Ep, Eo, Ew.
  split; [reflexivity|]. split; [exact Hmove|].
  intros Hgt. destruct (Hwrap Hgt) as [Hy Hx].
  split; [exact Hy | exists k; exact Hx].
Qed.

(** With a canvas, its size is the window's after every event. *)
Lemma viewport_inner_step s e :
  ready s ->
  viewport s = (innerWidth s, innerHeight s) ->
  viewport (step Math_sqrt s e)
  = (innerWidth (step Math_sqrt s e), innerHeight (step Math_sqrt s e)).
Proof.
  intros R Hvp. destruct (isResize e) eqn:Er.
  - destruct e as [r|r|code|code| |w h|env]; try discriminate Er. cbn [step].
    destruct (ready_parts s R) as (c & ctx & fCtx & Hv & Hc & Hctx & Hf & _).
    erewrite resize_draws by side. reflexivity.
  - destruct (fixed_step s e (innerWidth s) (innerHeight s) Er)
      as (H1 & H2 & H3); [auto|].
    rewrite H1, H2, H3. reflexivity.
Qed.

Lemma viewport_inner_run events : forall s,
  ready s ->
  viewport s = (innerWidth s, innerHeight s) ->
  viewport (run Math_sqrt s events)
  = (innerWidth (run Math_sqrt s events), innerHeight (run Math_sqrt s events)).
Proof.
  induction events as [|e rest IH]; intros s R Hvp; [exact Hvp|].
  cbn [run fold_left]. apply IH; [apply ready_step, R|].
  apply viewport_inner_step; assumption.
Qed.

(** Only a frame moves the particles, and on a viewport of height [h] it
    leaves them at or above the bottom edge. *)
Lemma below_step s e h :
  -10 <= h -> snd (viewport s) = h ->
  Forall (fun f => Snowflake.y f <= h) (snowflakes s) ->
  Forall (fun f => Snowflake.y f <= h) (snowflakes (step Math_sqrt s e)).
Proof.
  intros Hh Hvp Hall. by_event s e; try exact Hall.
  unfold viewport in Hvp. rewrite Hc in Hvp. cbn [snd] in Hvp. rewrite Hvp.
  apply snowLoop_below, Hh.
Qed.

Lemma below_run events w h : forall s,
  -10 <= h ->
  forallb (fun e => negb (isResize e)) events = true ->
  viewport s = (w, h) /\ innerWidth s = w /\ innerHeight s = h ->
  Forall (fun f => Snowflake.y f <= h) (snowflakes s) ->
  viewport (run Math_sqrt s events) = (w, h)
  /\ Forall (fun f => Snowflake.y f <= h) (snowflakes (run Math_sqrt s events)).
Proof.
  induction events as [|e rest IH]; intros s Hh Hno Hfix Hall.
  - split; [apply Hfix | exact Hall].
  - cbn [forallb] in Hno. apply andb_prop in Hno as [He Hrest].
    apply negb_true_iff in He. cbn [run fold_left].
    apply IH; auto.
    + apply fixed_step; assumption.
    + apply below_step; auto. destruct Hfix as [Hvp _]. rewrite Hvp. reflexivity.
Qed.

Lemma frame_advances env s :
  ready s -> requestRef s = true ->
  snowflakes (step Math_sqrt s (AnimationFrame env))
  = fst (snowLoop (random env) (fst (viewport s)) (snd (viewport s)) 0
           (snowflakes s) Ctx.fresh).
Proof.
  intros R Hreq. cbn [step]. rewrite Hreq.
  assert (R0 : ready (set_requestRef false s)) by exact R.
  destruct (ready_parts _ R0) as (c & ctx & fCtx & Hv & Hc & Hctx & Hf & Hvp).
  destruct (animate_draws env _ c ctx fCtx Hv Hc Hctx Hf) as (ctx' & fCtx' & E & _).
  rewrite E. change (viewport s) with (viewport (set_requestRef false s)).
  rewrite Hvp. reflexivity.
Qed.

(** C7 (as the code has it). From mount on the component holds exactly
    60 particles, each with [0 <= size <= 4] and [0.2 <= opacity <= 0.7].
    Particles are created over a 1080-high extent whatever the viewport;
    once a frame has drawn, and for as long as the window is not resized,
    every particle is at or above the bottom edge of the viewport
    ([y <= height]) in every state, so that the value [y + speed] an
    advance computes exceeds the height by less than 2.  Each frame
    advances every particle once: the particle keeps size, speed, opacity
    and wind, and either moves by its speed and wind (when the new [y] does
    not exceed the height) or restarts at [y = -10] with a new [x] from
    [Math.random() * width], which lies in [0, width].  A window resize
    changes the viewport and leaves the particles where they are. *)
Theorem particle_invariants rand symmetry c ctx w h events :
  (forall k, 0 <= rand k < 1) ->
  Canvas.context2d c = Some ctx ->
  let s := run Math_sqrt (mount rand true symmetry (Some c) true w h) events in
  List.length (snowflakes s) = 60%nat
  /\ Forall (fun f => 0 <= Snowflake.size f <= 4
                      /\ 0.2 <= Snowflake.opacity f <= 0.7) (snowflakes s)
  /\ (forall env later,
         -10 <= snd (viewport s) ->
         forallb (fun e => negb (isResize e)) later = true ->
         let s1 := run Math_sqrt (step Math_sqrt s (AnimationFrame env)) later in
         viewport s1 = viewport s
         /\ Forall (fun f =>
                      Snowflake.y f <= snd (viewport s)
                      /\ Snowflake.y f + Snowflake.speed f < snd (viewport s) + 2)
              (snowflakes s1)
         /\ forall env',
              Forall2 (advanced (random env') (fst (viewport s)) (snd (viewport s)))
                (snowflakes s1)
                (snowflakes (step Math_sqrt s1 (AnimationFrame env'))))
  /\ (forall w' h',
         snowflakes (step Math_sqrt s (WindowResize w' h')) = snowflakes s
         /\ viewport (step Math_sqrt s (WindowResize w' h')) = (w', h'))
  /\ (forall (r : nat -> Q) vw vh k f ctx0,
         let f' := fst (fst (snowStep r vw vh k f ctx0)) in
         Snowflake.size f' = Snowflake.size f
         /\ Snowflake.speed f' = Snowflake.speed f
         /\ Snowflake.opacity f' = Snowflake.opacity f
         /\ Snowflake.wind f' = Snowflake.wind f
         /\ (vh < Snowflake.y f + Snowflake.speed f ->
             Snowflake.y f' = -10 /\ Snowflake.x f' = r k * vw
             /\ (0 <= r k < 1 -> 0 <= vw -> 0 <= Snowflake.x f' <= vw))
         /\ (Snowflake.y f + Snowflake.speed f <= vh ->
             Snowflake.y f' = Snowflake.y f + Snowflake.speed f
             /\ Snowflake.x f' = Snowflake.x f + Snowflake.wind f)).
Proof.
  intros Hr Hctx s.
  set (s0 := mount rand true symmetry (Some c) true w h) in *.
  set (P := fun f => 0 <= Snowflake.size f <= 4
                     /\ 0.2 <= Snowflake.opacity f <= 0.7).
  assert (HP : forall r w h k f ctx, P f -> P (fst (fst (snowStep r w h k f ctx)))).
  { intros r0 w0 h0 k f ctx0 Hf. unfold P in *.
    destruct (snowStep_flake r0 w0 h0 k f ctx0) as (Es & _ & Eo & _).
    rewrite Es, Eo. exact Hf. }
  destruct (snow_run P events HP s0) as [Hlen Hall].
  fold s in Hlen, Hall. unfold s0 in Hlen, Hall. rewrite mount_snow in Hlen, Hall.
  destruct (live_run events s0) as [R Hreq];
    [eapply ready_mount, Hctx | apply mount_requests |]. fold s in R, Hreq.
  assert (Hinner : viewport s = (innerWidth s, innerHeight s)).
  { apply viewport_inner_run; [eapply ready_mount, Hctx|].
    destruct (mount_tracking rand true symmetry (Some c) true w h)
      as (_ & _ & _ & _ & _ & _ & _ & Hiw & Hih).
    fold s0 in Hiw, Hih. rewrite Hiw, Hih. apply mount_viewport. }
  split; [|split; [|split; [|split]]].
  - rewrite Hlen, initSnowLoop_length. reflexivity.
  - apply Hall. apply initSnowLoop_forall; [|constructor].
    intros i. apply newSnowflake_bounds, Hr.
  - intros env later Hh Hno s1.
    set (sf := step Math_sqrt s (AnimationFrame env)) in *.
    assert (Rf : ready sf) by (apply ready_step, R).
    assert (Hqf : requestRef sf = true) by (apply live_step; assumption).
    assert (Hfix : viewport sf = (innerWidth s, innerHeight s)
                   /\ innerWidth sf = innerWidth s /\ innerHeight sf = innerHeight s).
    { apply fixed_step; [reflexivity | auto]. }
    assert (Hbelow : Forall (fun f => Snowflake.y f <= innerHeight s) (snowflakes sf)).
    { unfold sf. rewrite (frame_advances env s R Hreq), Hinner. cbn [fst snd].
      rewrite Hinner in Hh. apply snowLoop_below, Hh. }
    rewrite Hinner in Hh |- *. cbn [fst snd] in Hh |- *.
    destruct (below_run later (innerWidth s) (innerHeight s) sf Hh Hno Hfix Hbelow)
      as [Hvp1 Hall1]. fold s1 in Hvp1, Hall1.
    destruct (live_run later sf Rf Hqf) as [R1 Hq1]. fold s1 in R1, Hq1.
    split; [exact Hvp1|]. split.
    + assert (Hsp : Forall (fun f => Snowflake.speed f < 2) (snowflakes s1)).
      { apply (body_forall (fun b => snd (fst (fst b)) < 2) _ (snowflakes s0)).
        - unfold s1, sf. rewrite body_run, body_step. apply body_run.
        - unfold s0. rewrite mount_snow. apply initSnowLoop_forall; [|constructor].
          intros i. cbn [body fst snd].
          destruct (newSnowflake_drift rand i Hr) as ((_ & H) & _). exact H. }
      rewrite Forall_forall in Hall1, Hsp |- *. intros f Hin.
      specialize (Hall1 f Hin). specialize (Hsp f Hin). cbn beta in *.
      split; lra.
    + intros env'. rewrite (frame_advances env' s1 R1 Hq1), Hvp1. cbn [fst snd].
      apply snowLoop_advanced.
  - intros w' h'. cbn [step].
    destruct (ready_parts s R) as (c' & ctx' & fCtx & Hv & Hc & Hctx' & Hf & _).
    erewrite resize_draws by side. split; reflexivity.
  - intros r vw vh k f ctx0 f'.
    destruct (snowStep_flake r vw vh k f ctx0) as (Es & Ep & Eo & Ew & Hwrap & Hmove).
    fold f' in Es, Ep, Eo, Ew, Hwrap, Hmove.
    repeat (split; [assumption|]). split; [|exact Hmove].
    intros Hgt. destruct (Hwrap Hgt) as [Hy Hx].
    split; [exact Hy|]. split; [exact Hx|].
    intros [Hr0 Hr1] Hvw. rewrite Hx. split.
    + apply Qmult_le_0_compat; assumption.
    + setoid_replace vw with (1 * vw) at 2 by ring.
      apply Qmult_le_compat_r; [lra | exact Hvw].
Qed.

End Runs.

(** ** The application shell *)

Lemma app_inv_step a e :
  (App.status a = App.READY -> App.srcObject a = true /\ App.videoRef a = true)
  /\ (App.status a = App.ERROR <-> App.errorMessage a = App.CameraUnavailable)
  /\ (App.isSymmetry a = true -> App.status a = App.READY)
  /\ (App.awaiting a = true -> App.status a = App.LOADING) ->
  (App.status (App.step a e) = App.READY ->
     App.srcObject (App.step a e) = true /\ App.videoRef (App.step a e) = true)
  /\ (App.status (App.step a e) = App.ERROR
      <-> App.errorMessage (App.step a e) = App.CameraUnavailable)
  /\ (App.isSymmetry (App.step a e) = true -> App.status (App.step a e) = App.READY)
  /\ (App.awaiting (App.step a e) = true -> App.status (App.step a e) = App.LOADING).
Proof.
  destruct a as [st msg sym v src aw].
  destruct e, st, aw, v; cbn; intros (H1 & [H2 H2'] & H3 & H4);
    repeat split; intros; try discriminate; try congruence; auto.
  all: try (destruct H1; [reflexivity|]; congruence).
  all: try (destruct sym; [discriminate (H3 eq_refl) | discriminate]).
  all: try (discriminate (H4 eq_refl)).
  all: try (destruct msg; [discriminate | discriminate (H2' eq_refl)]).
Qed.

Lemma app_inv_run events : forall a,
  (App.status a = App.READY -> App.srcObject a = true /\ App.videoRef a = true)
  /\ (App.status a = App.ERROR <-> App.errorMessage a = App.CameraUnavailable)
  /\ (App.isSymmetry a = true -> App.status a = App.READY)
  /\ (App.awaiting a = true -> App.status a = App.LOADING) ->
  let a' := App.run a events in
  (App.status a' = App.READY -> App.srcObject a' = true /\ App.videoRef a' = true)
  /\ (App.status a' = App.ERROR <-> App.errorMessage a' = App.CameraUnavailable)
  /\ (App.isSymmetry a' = true -> App.status a' = App.READY)
  /\ (App.awaiting a' = true -> App.status a' = App.LOADING).
Proof.
  induction events as [|e rest IH]; intros a Hinv; [exact Hinv|].
  cbn [App.run fold_left]. apply IH, app_inv_step, Hinv.
Qed.

Lemma app_inv_initial video :
  let a := App.initial video in
  (App.status a = App.READY -> App.srcObject a = true /\ App.videoRef a = true)
  /\ (App.status a = App.ERROR <-> App.errorMessage a = App.CameraUnavailable)
  /\ (App.isSymmetry a = true -> App.status a = App.READY)
  /\ (App.awaiting a = true -> App.status a = App.LOADING).
Proof. cbn. repeat split; intros; discriminate. Qed.

(** X13. Whatever is clicked and however the camera request settles, the
    application shows the glass only over a video element that has the
    camera stream attached; it is in the error state exactly when the error
    message is set; symmetry is only ever on in the ready state; and a
    camera request is only ever pending in the loading state. *)
Theorem app_status_invariants video events :
  let a := App.run (App.initial video) events in
  (forall sym, App.render a = App.Glass sym ->
     App.status a = App.READY /\ App.srcObject a = true /\ App.videoRef a = true
     /\ sym = App.isSymmetry a)
  /\ (App.status a = App.ERROR <-> App.errorMessage a = App.CameraUnavailable)
  /\ (App.isSymmetry a = true -> App.status a = App.READY)
  /\ (App.awaiting a = true -> App.status a = App.LOADING).
Proof.
  intros a.
  destruct (app_inv_run events (App.initial video) (app_inv_initial video))
    as (H1 & H2 & H3 & H4). fold a in H1, H2, H3, H4.
  split; [|split; [exact H2 | split; [exact H3 | exact H4]]].
  intros sym Hr. unfold App.render in Hr.
  destruct (App.status a) eqn:Es; try discriminate Hr.
  destruct (H1 eq_refl) as [Hs Hv]. rewrite Hv in Hr.
  injection Hr as <-. auto.
Qed.

(** X15. The ways out of a camera request.  Once ready, the application
    stays ready: no event leaves the glass.  The error state is left by the
    reload alone.  If the camera is granted while there is no video element,
    nothing is attached and no state is set: the application is left
    loading with no request pending, and from there no event changes
    anything, so the spinner stays for good. *)
Theorem app_camera_outcomes video events e :
  let a := App.run (App.initial video) events in
  (App.status a = App.READY -> App.status (App.step a e) = App.READY)
  /\ (App.status a = App.ERROR -> e <> App.ClickReload -> App.step a e = a)
  /\ (App.status a = App.LOADING -> App.awaiting a = false -> App.step a e = a)
  /\ (App.status a = App.LOADING -> App.awaiting a = true ->
      App.videoRef a = false -> 
      let a' := App.step a App.Granted in
      App.status a' = App.LOADING /\ App.awaiting a' = false
      /\ App.srcObject a' = App.srcObject a).
Proof.
  intros a.
  destruct (app_inv_run events (App.initial video) (app_inv_initial video))
    as (H1 & H2 & H3 & H4). fold a in H1, H2, H3, H4.
  clearbody a. destruct a as [st msg sym v src aw]. cbn in *.
  repeat split.
  - intros ->. destruct aw; [discriminate (H4 eq_refl)|].
    destruct e, v; reflexivity.
  - intros -> Hne. destruct aw; [discriminate (H4 eq_refl)|].
    destruct e; cbn; try reflexivity. congruence.
  - intros -> ->. destruct e; reflexivity.
  - subst. reflexivity.
  - subst. reflexivity.
  - subst. reflexivity.
Qed.

(** * Closed instances *)

(** A closed state is ready, by evaluation. *)
Ltac closed_ready s :=
  split; [vm_compute; reflexivity|]; split;
  [ let c := eval vm_compute in (canvasRef s) in
    lazymatch c with
    | Some (Canvas.mk ?w ?h (Some ?ctx)) =>
        exists (Canvas.mk w h (Some ctx)), ctx;
        split; [vm_compute; reflexivity | reflexivity]
    end
  | let f := eval vm_compute in (Canvas.context2d (fogCanvasRef s)) in
    lazymatch f with
    | Some ?fCtx => exists fCtx; vm_compute; reflexivity
    end ].

(** C1, the claim as stated fails at the threshold. The hand appears, the
    frame at clock 5000 sets the timer, and the frame at clock 6000 comes
    with the fingertip present for 1000 ms: it erases nothing (the frame at
    6001 does). *)
Lemma wipe_gate_silent_at_1000ms :
  let hand := HandsResults (Some [sampleHand 0.2 0.5]) in
  let s := run Qsqrt_floor mounted [hand; AnimationFrame (sampleEnv 5000)] in
  indexTipPos s = Some (Point.mk 0.2 0.5)
  /\ handPresenceTime s = 5000
  /\ 1000 <= nowAtElapsed (sampleEnv 6000) - handPresenceTime s
  /\ erases (sampleEnv 6000) s = []
  /\ eraseTimes Qsqrt_floor mounted
       [hand; AnimationFrame (sampleEnv 5000); AnimationFrame (sampleEnv 6000);
        AnimationFrame (sampleEnv 6001)]
     = [6001].
Proof.
  vm_compute. repeat split. discriminate.
Qed.

Lemma wipe_gating_witness :
  let hand := HandsResults (Some [sampleHand 0.2 0.5]) in
  let s := run Qsqrt_floor mounted
             [hand; AnimationFrame (sampleEnv 5000);
              AnimationFrame (sampleEnv 5900); HandsResults None; hand] in
  let frames := [AnimationFrame (sampleEnv 5950); AnimationFrame (sampleEnv 6100);
                 AnimationFrame (sampleEnv 6951); AnimationFrame (sampleEnv 6967)] in
  let held := run Qsqrt_floor mounted [hand; AnimationFrame (sampleEnv 5000)] in
  let busy := [HandsResults (Some [sampleHand 0.3 0.5]); FaceResults None;
               KeyDown "Space"; AnimationFrame (sampleEnv 5500)] in
  handPresenceTime s == 0
  /\ Forall (fun t => 5950 + 1000 < t) (eraseTimes Qsqrt_floor s frames)
  /\ eraseTimes Qsqrt_floor s frames = [6951; 6967]
  /\ handPresenceTime held = 5000
  /\ handPresenceTime (run Qsqrt_floor held busy) = 5000
  /\ filter isErase
       (painted (run Qsqrt_floor held busy)
          (step Qsqrt_floor (run Qsqrt_floor held busy)
             (AnimationFrame (sampleEnv 6001)))) <> [].
Proof.
  intros hand s frames held busy.
  destruct (wipe_gating Qsqrt_floor) as (_ & _ & _ & _ & Hbound & Hheld).
  assert (H0 : handPresenceTime s == 0) by (vm_compute; reflexivity).
  split; [exact H0|]. split; [|split; [vm_compute; reflexivity|]].
  - apply Hbound; [exact H0|].
    intros env [H|[H|[H|[H|[]]]]]; injection H as <-; vm_compute; discriminate.
  - assert (R : ready held) by (closed_ready held).
    assert (Ht : handPresenceTime held = 5000) by (vm_compute; reflexivity).
    assert (Htip : indexTipPos held <> None) by (vm_compute; discriminate).
    assert (Hset : ~ 5000 == 0) by discriminate.
    destruct (Hheld held busy 5000 (sampleEnv 6001) R eq_refl Htip Ht Hset eq_refl)
      as (_ & Hkept & Hiff).
    split; [exact Ht|]. split; [exact Hkept|].
    apply Hiff. vm_compute. reflexivity.
Defined.

Lemma fog_deposit_witness :
  let s := run Qsqrt_floor mounted [KeyDown "Space"] in
  exists c ctx fCtx,
    videoSource s = true
    /\ canvasRef s = Some c /\ Canvas.context2d c = Some ctx
    /\ Canvas.context2d (fogCanvasRef s) = Some fCtx
    /\ (deposits (sampleEnv 5000) s <> []
        <-> 0.1 < Qmax (breathIntensity s) (if isBreathingManual s then 0.8 else 0)).
Proof.
  intros s.
  pose proof (fog_deposit (sampleEnv 5000) s _ _ _
                eq_refl eq_refl eq_refl eq_refl) as H.
  do 3 eexists.
  split; [reflexivity|]. split; [reflexivity|]. split; [reflexivity|].
  split; [reflexivity|].
  exact (proj1 H).
Defined.

Lemma breath_intensity_mapping_witness :
  lipDistance Qsqrt_floor (sampleFace 0.04 13%nat) (sampleFace 0.04 14%nat) == 0.04
  /\ breathIntensity
       (faceOnResults Qsqrt_floor (Some [sampleFace 0.04]) mounted) == 0.45.
Proof.
  split; [vm_compute; reflexivity|].
  destruct (proj2 (proj2 (breath_intensity_mapping Qsqrt_floor))
              (sampleFace 0.04) [] mounted) as (_ & _ & H & _).
  apply H. vm_compute. reflexivity.
Defined.

Lemma face_loss_transition_witness :
  let s := run Qsqrt_floor mounted [FaceResults (Some [sampleFace 0.04])] in
  breathIntensity s == 0.45
  /\ breathIntensity (step Qsqrt_floor s (FaceResults (Some []))) = 0
  /\ mouthPos (step Qsqrt_floor s (FaceResults (Some []))) = mouthPos s.
Proof.
  intros s. split; [vm_compute; reflexivity|].
  apply (face_loss_transition Qsqrt_floor (Some []) s). right. reflexivity.
Defined.

Lemma fog_seeded_witness :
  fogCalls mounted
  = [Fill SourceOver 1 (Solid (rgba 200 220 240 0.15)) (Rect 0 0 800 600)].
Proof.
  apply (proj1 (fog_seeded Qsqrt_floor) sampleRandom true false canvas0).
Defined.

Lemma symmetry_fan_out_witness :
  let s := run Qsqrt_floor mounted
             [ToggleSymmetry; HandsResults (Some [sampleHand 0.2 0.5]);
              AnimationFrame (sampleEnv 5000)] in
  erases (sampleEnv 6001) s <> []
  /\ isSymmetry s = true
  /\ exists p,
       smoothedIndexTip (animate (sampleEnv 6001) s) = Some p
       /\ List.length (erases (sampleEnv 6001) s) = 2%nat.
Proof.
  intros s.
  assert (Hne : erases (sampleEnv 6001) s <> []) by (vm_compute; discriminate).
  assert (Hsym : isSymmetry s = true) by (vm_compute; reflexivity).
  assert (Hv : videoSource s = true) by (vm_compute; reflexivity).
  split; [exact Hne|]. split; [exact Hsym|].
  let c := eval vm_compute in (canvasRef s) in
  lazymatch c with
  | Some (Canvas.mk ?w ?h (Some ?ctx)) =>
      assert (Hc : canvasRef s = Some (Canvas.mk w h (Some ctx)))
        by (vm_compute; reflexivity);
      let f := eval vm_compute in (Canvas.context2d (fogCanvasRef s)) in
      lazymatch f with
      | Some ?fCtx =>
          assert (Hf : Canvas.context2d (fogCanvasRef s) = Some fCtx)
            by (vm_compute; reflexivity);
          destruct (symmetry_fan_out (sampleEnv 6001) s _ ctx fCtx
                      Hv Hc eq_refl Hf Hne) as (p & Hp & Hon & _)
      end
  end.
  exists p. split; [exact Hp|]. rewrite (Hon Hsym). reflexivity.
Defined.

Lemma manual_breath_before_any_face_witness :
  let s := run Qsqrt_floor mounted
             [HandsResults (Some [sampleHand 0.2 0.5]); FaceResults None;
              KeyDown "Space"] in
  isBreathingManual s = true
  /\ mouthPos s = Point.mk 0.5 0.5
  /\ exists ga cx cy,
       deposits (sampleEnv 5000) s
       = [depositCall ga cx cy (100 + 0.8 * 150) (0.8 * 0.04)]
       /\ cx == 800 / 2 /\ cy == 600 / 2.
Proof.
  intros s. split; [reflexivity|].
  apply (manual_breath_before_any_face Qsqrt_floor sampleRandom false canvas0
           Ctx.fresh 800 600
           [HandsResults (Some [sampleHand 0.2 0.5]); FaceResults None;
            KeyDown "Space"] (sampleEnv 5000)); reflexivity.
Defined.







(** C7, the claim as stated fails. On the 800 x 600 window the first
    particle is created at y = 1026 with speed 1.925: before any advance
    it is further below the bottom edge than one frame's speed, and so is
    the value [y + speed] its first advance computes before the wrap
    resets it to -10.  And after a frame has drawn: with every particle
    created at y = 540 with speed 1.25, a frame on the 800 x 600 window
    moves them to 541.25 without a wrap; the window then shrinks to
    800 x 300, which leaves the particles where they are, all 60 of them
    below the new bottom edge by more than their speed. *)
Lemma particle_exceeds_viewport_height :
  (viewport mounted = (800, 600)
   /\ match snowflakes mounted,
            snowflakes (run Qsqrt_floor mounted [AnimationFrame (sampleEnv 16)]) with
      | f :: _, f' :: _ =>
          Snowflake.y f == 1026 /\ Snowflake.speed f == 1.925
          /\ snd (viewport mounted) + Snowflake.speed f < Snowflake.y f
          /\ snd (viewport mounted) + Snowflake.speed f
             < Snowflake.y f + Snowflake.speed f
          /\ Snowflake.y f' == -10
      | _, _ => False
      end)
  /\ (let s := run Qsqrt_floor
                 (mount sampleRandomHalf true false (Some canvas0) true 800 600)
                 [AnimationFrame (sampleEnv 16); WindowResize 800 300] in
      viewport s = (800, 300)
      /\ List.length (snowflakes s) = 60%nat
      /\ forallb (fun f => Qltb (snd (viewport s) + Snowflake.speed f) (Snowflake.y f))
           (snowflakes s) = true
      /\ match snowflakes s with
         | f :: _ => Snowflake.y f == 541.25 /\ Snowflake.speed f == 1.25
         | [] => False
         end).
Proof.
  split; vm_compute; repeat split.
Qed.

Lemma particle_invariants_witness :
  (forall k, 0 <= sampleRandom k < 1)
  /\ let s := run Qsqrt_floor mounted
                [AnimationFrame (sampleEnv 16); WindowResize 1024 768;
                 AnimationFrame (sampleEnv 32)] in
     let s1 := run Qsqrt_floor (step Qsqrt_floor s (AnimationFrame (sampleEnv 48)))
                 [KeyDown "Space"; ToggleSymmetry; AnimationFrame (sampleEnv 64)] in
     List.length (snowflakes s) = 60%nat
     /\ Forall (fun f => 0 <= Snowflake.size f <= 4
                         /\ 0.2 <= Snowflake.opacity f <= 0.7) (snowflakes s)
     /\ viewport s = (1024, 768)
     /\ Forall (fun f => Snowflake.y f <= snd (viewport s)
                         /\ Snowflake.y f + Snowflake.speed f < snd (viewport s) + 2)
          (snowflakes s1).
Proof.
  assert (Hr : forall k, 0 <= sampleRandom k < 1)
    by (intros k; unfold sampleRandom; lra).
  split; [exact Hr|].
  intros s s1.
  destruct (particle_invariants Qsqrt_floor sampleRandom false canvas0 Ctx.fresh
              800 600
              [AnimationFrame (sampleEnv 16); WindowResize 1024 768;
               AnimationFrame (sampleEnv 32)] Hr eq_refl)
    as (Hlen & Hall & Hbelow & _).
  split; [exact Hlen|]. split; [exact Hall|].
  split; [vm_compute; reflexivity|].
  destruct (Hbelow (sampleEnv 48)
              [KeyDown "Space"; ToggleSymmetry; AnimationFrame (sampleEnv 64)])
    as (_ & H & _); [vm_compute; discriminate | reflexivity | exact H].
Defined.

(** ** Closed instances of the further properties *)

Lemma sampleRandom_unit : forall k, 0 <= sampleRandom k < 1.
Proof. intros k. split; [discriminate | reflexivity]. Qed.

Ltac surfaces s :=
  let c := eval vm_compute in (canvasRef s) in
  lazymatch c with
  | Some (Canvas.mk ?w ?h (Some ?ctx)) =>
      let f := eval vm_compute in (Canvas.context2d (fogCanvasRef s)) in
      lazymatch f with
      | Some ?fCtx =>
          assert (Hv : videoSource s = true) by (vm_compute; reflexivity);
          assert (Hc : canvasRef s = Some (Canvas.mk w h (Some ctx)))
            by (vm_compute; reflexivity);
          assert (Hctx : Canvas.context2d (Canvas.mk w h (Some ctx)) = Some ctx)
            by reflexivity;
          assert (Hf : Canvas.context2d (fogCanvasRef s) = Some fCtx)
            by (vm_compute; reflexivity)
      end
  end.

Ltac all_normalized :=
  repeat (apply Forall_cons; [cbv; repeat split; discriminate |]); apply Forall_nil.

Lemma fog_frame_appends_witness :
  indexTipPos mounted = None /\ erases (sampleEnv 6001) mounted = [].
Proof.
  split; [reflexivity|].
  destruct (fog_frame_appends (sampleEnv 6001) mounted) as (_ & _ & _ & H).
  apply H. reflexivity.
Defined.

Lemma effect_rerun_reseeds_witness :
  let s := run Qsqrt_floor mounted
             [KeyDown "Space"; AnimationFrame (sampleEnv 16)] in
  List.length (fogCalls s) = 2%nat
  /\ fogCalls (step Qsqrt_floor s ToggleSymmetry)
     = [Fill SourceOver 1 (Solid (frost 0.15)) (Rect 0 0 800 600)].
Proof.
  intros s. split; [vm_compute; reflexivity|]. surfaces s.
  destruct (effect_rerun_reseeds Qsqrt_floor s ToggleSymmetry _ _ _ Hc Hctx Hf I)
    as (Hyes & _ & Htoggle).
  destruct (Hyes (or_intror (or_introl (Htoggle eq_refl)))) as (Hfog & _).
  etransitivity; [exact Hfog|]. vm_compute. reflexivity.
Defined.

Lemma hand_state_consistent_witness :
  let s := run Qsqrt_floor mounted
             [HandsResults (Some [samplePeace]); AnimationFrame (sampleEnv 16);
              HandsResults (Some [])] in
  handDetected s = false /\ handPresenceTime s = 0.
Proof.
  intros s. split; [vm_compute; reflexivity|].
  apply (hand_state_consistent Qsqrt_floor sampleRandom true false (Some canvas0)
           true 800 600
           [HandsResults (Some [samplePeace]); AnimationFrame (sampleEnv 16);
            HandsResults (Some [])]).
  vm_compute. reflexivity.
Defined.

Lemma peace_sign_detection_witness :
  peaceSign samplePeace
  /\ peaceDetected
       (step Qsqrt_floor mounted
          (HandsResults (Some [samplePeace; sampleHand 0.2 0.5]))) = true.
Proof.
  assert (H : peaceSign samplePeace) by (cbv; repeat split).
  split; [exact H|].
  apply (proj1 (peace_sign_detection Qsqrt_floor mounted samplePeace
                  [sampleHand 0.2 0.5])).
  exact H.
Defined.

Lemma erase_lands_in_viewport_witness :
  let s := run Qsqrt_floor mounted
             [HandsResults (Some [sampleHand 0.2 0.5]);
              AnimationFrame (sampleEnv 5000); AnimationFrame (sampleEnv 6001)] in
  List.length (erases (sampleEnv 6017) s) = 1%nat
  /\ Forall (landsIn 800 600) (erases (sampleEnv 6017) s).
Proof.
  intros s. split; [vm_compute; reflexivity|].
  apply (erase_lands_in_viewport Qsqrt_floor sampleRandom true false canvas0 true
           800 600
           [HandsResults (Some [sampleHand 0.2 0.5]);
            AnimationFrame (sampleEnv 5000); AnimationFrame (sampleEnv 6001)]).
  - discriminate.
  - discriminate.
  - all_normalized.
  - reflexivity.
Defined.


Lemma window_resize_keeps_tracking_witness :
  canvasRef mounted <> None
  /\ viewport (step Qsqrt_floor mounted (WindowResize 400 300)) = (400, 300).
Proof.
  assert (H : canvasRef mounted <> None) by (vm_compute; discriminate).
  split; [exact H|].
  destruct (window_resize_keeps_tracking Qsqrt_floor mounted 400 300)
    as (_ & Hvp & _).
  apply Hvp, H.
Defined.

Lemma loop_stays_alive_witness :
  requestRef
    (run Qsqrt_floor mounted
       [AnimationFrame (sampleEnv 16); WindowResize 400 300;
        FaceResults (Some [sampleFace 0.04]); AnimationFrame (sampleEnv 32)])
  = true.
Proof.
  apply (loop_stays_alive Qsqrt_floor sampleRandom false canvas0 Ctx.fresh 800 600
           [AnimationFrame (sampleEnv 16); WindowResize 400 300;
            FaceResults (Some [sampleFace 0.04]); AnimationFrame (sampleEnv 32)]).
  reflexivity.
Defined.

Lemma particle_identity_witness :
  Forall (fun f => 0.5 <= Snowflake.speed f < 2 /\ -0.25 <= Snowflake.wind f < 0.25)
    (snowflakes (run Qsqrt_floor mounted [AnimationFrame (sampleEnv 16)])).
Proof.
  apply (particle_identity Qsqrt_floor sampleRandom true false (Some canvas0) true
           800 600 [AnimationFrame (sampleEnv 16)] sampleRandom_unit).
Defined.

Lemma app_status_invariants_witness :
  let a := App.run (App.initial true) [App.ClickStart; App.Granted; App.ClickToggle] in
  App.isSymmetry a = true /\ App.status a = App.READY.
Proof.
  intros a. split; [reflexivity|].
  apply (app_status_invariants true [App.ClickStart; App.Granted; App.ClickToggle]).
  reflexivity.
Defined.

Lemma app_camera_outcomes_witness :
  let a := App.run (App.initial false) [App.ClickStart; App.Granted] in
  App.status a = App.LOADING /\ App.awaiting a = false
  /\ App.step a App.ClickStart = a.
Proof.
  intros a. split; [reflexivity|]. split; [reflexivity|].
  destruct (app_camera_outcomes false [App.ClickStart; App.Granted] App.ClickStart)
    as (_ & _ & H & _).
  apply H; reflexivity.
Defined.

Lemma frame_compositing_witness :
  let s := run Qsqrt_floor mounted [HandsResults (Some [samplePeace])] in
  let frame := drawn s (animate (sampleEnv 16) s) in
  List.length frame = 64%nat
  /\ nth_error frame 0 = Some (DrawVideo 1 800 600)
  /\ nth_error frame 2 = Some (DrawFog 0.85)
  /\ nth_error frame 63
     = Some (FillText 0.3 (Solid (white 1)) PeaceGlyph (800 / 2) (600 / 2 + 70)).
Proof.
  intros s frame. surfaces s.
  unfold frame.
  rewrite (frame_compositing (sampleEnv 16) s _ _ _ Hv Hc Hctx Hf).
  vm_compute. repeat split.
Defined.

Lemma video_drawn_dimmed_witness :
  let s1 := step Qsqrt_floor mounted (AnimationFrame (sampleEnv 16)) in
  hd_error (drawn s1 (step Qsqrt_floor s1 (AnimationFrame (sampleEnv 32))))
  = Some (DrawVideo (0.2 + 0.95 * 0.5) 800 600).
Proof.
  intros s1.
  destruct (video_drawn_dimmed Qsqrt_floor sampleRandom false canvas0 Ctx.fresh
              800 600 [] (sampleEnv 16) (sampleEnv 32) sampleRandom_unit eq_refl)
    as (_ & _ & H).
  etransitivity; [exact H|]. vm_compute. reflexivity.
Defined.
